(** * ghettp: a shallow embedding of the HTTP server engine

    The development follows the two translation units of the library:
    [ghettp::socket] (request parsing, response serialisation and the
    per-connection sequence, [src/source/socket.cpp]) and
    [ghettp::server] (the route table, dispatch and the start/stop
    life cycle, [src/source/ghettp.cpp]).

    - [std::string] is a Stdlib [string]: a sequence of 8-bit characters.
    - [std::map<std::string, T>] is coqutil's [SortedListString.map T]:
      a list of entries kept strictly ascending by the byte-wise
      lexicographic order on keys, which is the order in which a
      [std::map] is traversed.
    - [int] status codes are [Z]; [size_t] lengths are [nat].
    - A call that may throw returns an [outcome].
    - An operation whose behaviour the C++ standard leaves undefined
      yields [None]. *)

From Stdlib Require Import String Ascii List ZArith Lia Bool Sorted.
From Stdlib Require Import DecimalString.
From coqutil Require Import Map.Interface Map.Properties Map.SortedList.
From coqutil Require Import Map.SortedListString.
From coqutil Require Datatypes.String.
Import ListNotations.

#[local] Existing Instance SortedListString.ok.

Local Open Scope list_scope.
Local Open Scope string_scope.

(** ** Characters and strings *)

Definition LF : ascii := "010"%char.
Definition CR : ascii := "013"%char.
Definition NUL : ascii := "000"%char.
Definition CRLF : string := String CR (String LF "").

(** [std::isspace] in the "C" locale: space, and the controls
    [\t \n \v \f \r] (codes 9 to 13). *)
Definition isspace (c : ascii) : bool :=
  let n := nat_of_ascii c in
  Nat.eqb n 32 || (Nat.leb 9 n && Nat.leb n 13).

Module Str.

(** [s.empty()] *)
Definition empty (s : string) : bool :=
  match s with "" => true | _ => false end.

(** [s.back()]: the last character; undefined on an empty string. *)
Fixpoint back (s : string) : option ascii :=
  match s with
  | "" => None
  | String c "" => Some c
  | String _ s' => back s'
  end.

(** [s.pop_back()]: drops the last character; undefined on an empty
    string. *)
Fixpoint pop_back (s : string) : option string :=
  match s with
  | "" => None
  | String c s' =>
      match pop_back s' with
      | None => Some ""
      | Some t => Some (String c t)
      end
  end.

(** [s.find(c)]: index of the first occurrence, [None] for [npos]. *)
Fixpoint find (c : ascii) (s : string) : option nat :=
  match s with
  | "" => None
  | String d s' =>
      if Ascii.eqb d c then Some 0
      else option_map S (find c s')
  end.

Fixpoint take (n : nat) (s : string) : string :=
  match n, s with
  | S n', String c s' => String c (take n' s')
  | _, _ => ""
  end.

Fixpoint drop (n : nat) (s : string) : string :=
  match n, s with
  | S n', String _ s' => drop n' s'
  | _, _ => s
  end.

(** [s.substr(pos, n)] and [s.substr(pos)], for [pos <= s.size()].
    A larger [pos] throws [std::out_of_range]; the program passes 0,
    1 on a non-empty string, and the successor of an index returned by
    [find] (see [find_lt_length]). *)
Definition substr (s : string) (pos n : nat) : string := take n (drop pos s).
Definition substr_from (s : string) (pos : nat) : string := drop pos s.

(** [std::to_string]-style decimal output of [operator<<]. *)
Definition of_size_t (n : nat) : string :=
  NilZero.string_of_uint (Nat.to_uint n).
Definition of_int (z : Z) : string :=
  NilZero.string_of_int (Z.to_int z).

(** The value of a [char] buffer read as a C string: the characters
    before the first NUL. *)
Fixpoint c_str (buffer : string) : string :=
  match buffer with
  | "" => ""
  | String c s' => if Ascii.eqb c NUL then "" else String c (c_str s')
  end.

(** [s.find(needle)] for a string [needle]: index of the first
    occurrence, [None] for [npos]. *)
Fixpoint starts_with (needle s : string) : bool :=
  match needle, s with
  | "", _ => true
  | String a needle', String b s' => Ascii.eqb a b && starts_with needle' s'
  | _, "" => false
  end.

Fixpoint find_str (needle s : string) : option nat :=
  if starts_with needle s then Some 0
  else match s with
       | "" => None
       | String _ s' => option_map S (find_str needle s')
       end.

End Str.

(** ** The data model ([socket.hpp]) *)

Abbreviation Headers := (SortedListString.map string).

Module Req.
Record HttpRequest := {
  method : string;
  path : string;
  version : string;
  headers : Headers;
  body : string
}.
End Req.

Module Resp.
Record HttpResponse := {
  status_code : Z;
  status_text : string;
  headers : Headers;
  body : string
}.
End Resp.

Abbreviation HttpRequest := Req.HttpRequest.
Abbreviation HttpResponse := Resp.HttpResponse.

(** What a C++ function can throw: an object of a class derived from
    [std::exception], or a value of any other type. *)
Inductive thrown :=
| StdException (what : string)
| OtherThrown.

Inductive outcome (A : Type) :=
| Returned (a : A)
| Threw (e : thrown).
Arguments Returned {A} a.
Arguments Threw {A} e.

(** [using RequestHandler = std::function<HttpResponse(const HttpRequest&)>] *)
Definition RequestHandler := HttpRequest -> outcome HttpResponse.

(** The entries of a [std::map] in iteration order. *)
Definition entries {V} (m : SortedListString.map V) : list (string * V) :=
  SortedList.value m.

(** The fixed "not found" response, built field by field on a
    default-constructed [HttpResponse] both by the handler installed in
    the [socket] constructor and by [server::routeRequest]. *)
Definition not_found_body : string :=
  "<html><body><h1>404 - Not Found</h1></body></html>".

Definition not_found : HttpResponse :=
  {| Resp.status_code := 404;
     Resp.status_text := "Not Found";
     Resp.headers := map.put map.empty "Content-Type" "text/html";
     Resp.body := not_found_body |}.

(** ** [ghettp::socket] *)

Module socket.

(** *** Reading a [std::istringstream] line by line *)

(** The characters before the first LF, and what follows that LF. *)
Fixpoint split_line (s : string) : string * string :=
  match s with
  | "" => ("", "")
  | String c s' =>
      if Ascii.eqb c LF then ("", s')
      else let (l, r) := split_line s' in (String c l, r)
  end.

(** [std::getline(stream, line)] on the unread characters [s] of the
    stream: it fails when no character is left; otherwise [line]
    receives the characters up to the next LF (or the end), and the
    LF is consumed. *)
Definition getline (s : string) : option (string * string) :=
  match s with
  | "" => None
  | _ => Some (split_line s)
  end.

(** The lines that successive [getline] calls return until the first
    one that fails (see [lines_getline]). *)
Fixpoint lines (s : string) : list string :=
  match s with
  | "" => []
  | String c s' =>
      if Ascii.eqb c LF then "" :: lines s'
      else match lines s' with
           | [] => [String c ""]
           | l :: ls => String c l :: ls
           end
  end.

(** *** Formatted extraction: [stream >> word] *)

Fixpoint skipws (s : string) : string :=
  match s with
  | "" => ""
  | String c s' => if isspace c then skipws s' else s
  end.

Fixpoint read_word (s : string) : string * string :=
  match s with
  | "" => ("", "")
  | String c s' =>
      if isspace c then ("", s)
      else let (w, r) := read_word s' in (String c w, r)
  end.

(** [stream >> target]. The stream is [Some] of its unread characters,
    or [None] once [failbit] is set. The extraction skips leading
    white space; when nothing is left it sets [failbit] and leaves
    [target] as it was; otherwise [target] is replaced by the
    characters up to the next white space. *)
Definition extract (stream : option string) (target : string)
  : string * option string :=
  match stream with
  | None => (target, None)
  | Some s =>
      match skipws s with
      | "" => (target, None)
      | s' => let (w, r) := read_word s' in (w, Some r)
      end
  end.

(** [if (line.back() == '\r') line.pop_back();] *)
Definition strip_cr (line : string) : option string :=
  match Str.back line with
  | None => None
  | Some c => if Ascii.eqb c CR then Str.pop_back line else Some line
  end.

(** [first_line >> request.method >> request.path >> request.version] *)
Definition read_request_line (line : string) (request : HttpRequest)
  : HttpRequest :=
  let first_line := Some line in
  let (m, first_line) := extract first_line (Req.method request) in
  let (p, first_line) := extract first_line (Req.path request) in
  let (v, _) := extract first_line (Req.version request) in
  {| Req.method := m; Req.path := p; Req.version := v;
     Req.headers := Req.headers request; Req.body := Req.body request |}.

(** The body of the header loop: one line that is not the
    terminator. [None] when the line is empty ([back] is undefined). *)
Definition read_header (line : string) (hdrs : Headers) : option Headers :=
  match strip_cr line with
  | None => None
  | Some line =>
      match Str.find ":" line with
      | Some colon_pos =>
          let key := Str.substr line 0 colon_pos in
          let value := Str.substr_from line (colon_pos + 1) in
          let value :=
            match value with
            | String " " _ => Str.substr_from value 1
            | _ => value
            end in
          Some (map.put hdrs key value)
      | None => Some hdrs
      end
  end.

(** [while (std::getline(stream, line) && line != "\r") { ... }]:
    returns the header map and the lines left in the stream. *)
Fixpoint header_loop (stream : list string) (hdrs : Headers)
  : option (Headers * list string) :=
  match stream with
  | [] => Some (hdrs, [])
  | line :: rest =>
      if String.eqb line (String CR "") then Some (hdrs, rest)
      else match read_header line hdrs with
           | None => None
           | Some hdrs' => header_loop rest hdrs'
           end
  end.

(** [while (std::getline(stream, body_line)) request.body += body_line + "\n";] *)
Fixpoint body_loop (stream : list string) (body : string) : string :=
  match stream with
  | [] => body
  | body_line :: rest => body_loop rest (body ++ (body_line ++ String LF ""))
  end.

Definition HttpRequest_init : HttpRequest :=
  {| Req.method := ""; Req.path := ""; Req.version := "";
     Req.headers := map.empty; Req.body := "" |}.

(** [HttpRequest socket::parseRequest(const std::string& raw_request)].
    The [std::istringstream] over [raw_request] is held as the lines it
    has yet to deliver: a [getline] that succeeds takes the first one,
    and one that fails finds none. *)
Definition parseRequest (raw_request : string) : option HttpRequest :=
  let request := HttpRequest_init in
  let stream := lines raw_request in
  match
    match stream with
    | [] => Some (request, [])
    | line :: rest =>
        match strip_cr line with
        | None => None
        | Some line => Some (read_request_line line request, rest)
        end
    end
  with
  | None => None
  | Some (request, stream) =>
      match header_loop stream (Req.headers request) with
      | None => None
      | Some (hdrs, stream) =>
          let body := body_loop stream (Req.body request) in
          match (if Str.empty body then Some body else Str.pop_back body) with
          | None => None
          | Some body =>
              Some {| Req.method := Req.method request;
                      Req.path := Req.path request;
                      Req.version := Req.version request;
                      Req.headers := hdrs;
                      Req.body := body |}
          end
      end
  end.

(** [for (const auto& header : response.headers)
       response_stream << header.first << ": " << header.second << "\r\n";] *)
Definition write_headers (hdrs : Headers) (response_stream : string) : string :=
  fold_left
    (fun out header => out ++ fst header ++ ": " ++ snd header ++ CRLF)
    (entries hdrs) response_stream.

(** [std::string socket::buildResponse(const HttpResponse& response)] *)
Definition buildResponse (response : HttpResponse) : string :=
  let response_stream := "" in
  let response_stream :=
    response_stream ++ "HTTP/1.1 " ++ Str.of_int (Resp.status_code response)
      ++ " " ++ Resp.status_text response ++ CRLF in
  let response_stream := write_headers (Resp.headers response) response_stream in
  let response_stream :=
    response_stream ++ "Content-Length: "
      ++ Str.of_size_t (String.length (Resp.body response)) ++ CRLF in
  let response_stream := response_stream ++ CRLF in
  response_stream ++ Resp.body response.

(** The handler installed by the constructor. *)
Definition default_request_handler : RequestHandler :=
  fun _ => Returned not_found.

Definition error_response : string :=
  "HTTP/1.1 500 Internal Server Error" ++ CRLF ++
  "Content-Type: text/plain" ++ CRLF ++
  "Content-Length: 21" ++ CRLF ++
  CRLF ++
  "Internal Server Error".

(** What a connection thread does on its client socket. *)
Inductive event :=
| Send (payload : string)
| Close.

(** How [handleClient] ends: it returns after the given events; an
    exception leaves it (the thread function is left by an exception
    and [std::terminate] is called); or its behaviour is undefined. *)
Inductive client_result :=
| Done (trace : list event)
| Uncaught (e : thrown)
| Undefined.

(** [void socket::handleClient(int client_socket)], given the callback
    held in [m_request_handler] and the result of the one [read]: its
    return value and the bytes it stored in the zeroed buffer. The
    [catch] clause names [const std::exception&]. *)
Definition handleClient (m_request_handler : RequestHandler)
    (bytes_read : Z) (buffer : string) : client_result :=
  if (bytes_read <=? 0)%Z then Done [Close]
  else
    let raw_request := Str.c_str buffer in
    match parseRequest raw_request with
    | None => Undefined
    | Some request =>
        match m_request_handler request with
        | Returned response =>
            let response_str := buildResponse response in
            Done [Send response_str; Close]
        | Threw (StdException _) => Done [Send error_response; Close]
        | Threw e => Uncaught e
        end
    end.

(** The listening socket: the members that [stop] reads and writes. *)
Record state := {
  m_port : Z;
  m_socket_fd : Z;
  m_running : bool
}.

Inductive syscall :=
| shutdown_rdwr (fd : Z).

(** [void socket::stop()] *)
Definition stop (self : state) : state * list syscall :=
  let self := {| m_port := m_port self;
                 m_socket_fd := m_socket_fd self;
                 m_running := false |} in
  if negb (m_socket_fd self =? -1)%Z
  then (self, [shutdown_rdwr (m_socket_fd self)])
  else (self, []).

(** *** Construction and destruction *)

(** The system calls made on the listening socket over its life. *)
Inductive sys_call :=
| sys_socket
| sys_setsockopt (fd : Z)
| sys_bind (fd : Z) (port : Z)
| sys_listen (fd : Z) (backlog : Z)
| sys_shutdown (fd : Z)
| sys_close (fd : Z).

(** What the four system calls of the constructor return. *)
Record sys_results := {
  socket_ret : Z;
  setsockopt_ret : Z;
  bind_ret : Z;
  listen_ret : Z
}.

(** [htons(m_port)]: the [int] is converted to the 16-bit port number
    that [bind] receives. *)
Definition htons (port : Z) : Z := (port mod 65536)%Z.

(** [socket::socket(int port)]: the object (its members and the handler
    it installs) or the [std::runtime_error] thrown, with the system
    calls made. A constructor that throws runs no destructor. *)
Definition construct (port : Z) (sys : sys_results)
  : outcome (state * RequestHandler) * list sys_call :=
  let fd := socket_ret sys in
  if (fd =? -1)%Z then
    (Threw (StdException "Failed to create socket"), [sys_socket])
  else if (setsockopt_ret sys <? 0)%Z then
    (Threw (StdException "Failed to configure socket"),
     [sys_socket; sys_setsockopt fd])
  else if (bind_ret sys <? 0)%Z then
    (Threw (StdException "Failed to bind socket"),
     [sys_socket; sys_setsockopt fd; sys_bind fd (htons port)])
  else if (listen_ret sys <? 0)%Z then
    (Threw (StdException "Failed to listen on socket"),
     [sys_socket; sys_setsockopt fd; sys_bind fd (htons port);
      sys_listen fd 5])
  else
    (Returned ({| m_port := port; m_socket_fd := fd; m_running := false |},
               default_request_handler),
     [sys_socket; sys_setsockopt fd; sys_bind fd (htons port);
      sys_listen fd 5]).

(** [void socket::setRequestHandler(RequestHandler handler)] *)
Definition setRequestHandler (handler : RequestHandler)
    (self : state * RequestHandler) : state * RequestHandler :=
  (fst self, handler).

(** [socket::~socket()] *)
Definition destroy (self : state) : list sys_call :=
  let (self, calls) := stop self in
  let calls :=
    List.map (fun c => match c with shutdown_rdwr fd => sys_shutdown fd end)
      calls in
  if negb (m_socket_fd self =? -1)%Z
  then (calls ++ [sys_close (m_socket_fd self)])%list
  else calls.

End socket.

(** ** [ghettp::server] *)

Module server.

Abbreviation Routes :=
  (SortedListString.map (SortedListString.map RequestHandler)).

(** [m_routes[method][path] = handler]: [operator[]] inserts an empty
    sub-table under [method] when there is none. *)
Definition assign_route (method path : string) (handler : RequestHandler)
    (m_routes : Routes) : Routes :=
  let sub :=
    match map.get m_routes method with
    | Some sub => sub
    | None => map.empty
    end in
  map.put m_routes method (map.put sub path handler).

Definition get (path : string) (handler : RequestHandler) (m_routes : Routes) :=
  assign_route "GET" path handler m_routes.

Definition post (path : string) (handler : RequestHandler) (m_routes : Routes) :=
  assign_route "POST" path handler m_routes.

Definition put (path : string) (handler : RequestHandler) (m_routes : Routes) :=
  assign_route "PUT" path handler m_routes.

Definition del (path : string) (handler : RequestHandler) (m_routes : Routes) :=
  assign_route "DELETE" path handler m_routes.

(** The three response builders. *)
Definition respond (content_type content : string) (status_code : Z)
  : HttpResponse :=
  {| Resp.status_code := status_code;
     Resp.status_text := if (status_code =? 200)%Z then "OK" else "Error";
     Resp.headers := map.put map.empty "Content-Type" content_type;
     Resp.body := content |}.

Definition html := respond "text/html".
Definition json := respond "application/json".
Definition text := respond "text/plain".

(** [HttpResponse server::routeRequest(const HttpRequest& request)] *)
Definition routeRequest (m_routes : Routes) (request : HttpRequest)
  : outcome HttpResponse :=
  match map.get m_routes (Req.method request) with
  | Some method_routes =>
      match map.get method_routes (Req.path request) with
      | Some route => route request
      | None => Returned not_found
      end
  | None => Returned not_found
  end.

(** A [std::thread] member: default-constructed, or running a thread
    that has not been joined. *)
Inductive std_thread :=
| not_a_thread
| running_thread.

Definition joinable (t : std_thread) : bool :=
  match t with
  | running_thread => true
  | not_a_thread => false
  end.

Record state := {
  m_socket : socket.state;
  m_routes : Routes;
  m_server_thread : std_thread;
  m_running : bool
}.

Inductive effect :=
| socket_call (c : socket.syscall)
| thread_start
| thread_join.

(** [void server::start()]. Assigning to a [std::thread] that is
    still joinable calls [std::terminate]: [None]. *)
Definition start (self : state) : option (state * list effect) :=
  if joinable (m_server_thread self) then None
  else Some ({| m_socket := m_socket self;
                m_routes := m_routes self;
                m_server_thread := running_thread;
                m_running := true |}, [thread_start]).

(** [void server::stop()] *)
Definition stop (self : state) : state * list effect :=
  if m_running self then
    let (sock, calls) := socket.stop (m_socket self) in
    let effects := List.map socket_call calls in
    if joinable (m_server_thread self) then
      ({| m_socket := sock;
          m_routes := m_routes self;
          m_server_thread := not_a_thread;
          m_running := false |}, (effects ++ [thread_join])%list)
    else
      ({| m_socket := sock;
          m_routes := m_routes self;
          m_server_thread := m_server_thread self;
          m_running := false |}, effects)
  else (self, []).

(** The dispatch callback the constructor installs in the socket:
    [[this](const HttpRequest& req) { return routeRequest(req); }]. *)
Definition dispatch (self : state) : RequestHandler :=
  routeRequest (m_routes self).

(** [server::server(int port)]: the [socket] member is constructed
    first and its exception, if any, leaves the constructor; then the
    dispatch callback is installed (see [dispatch]). *)
Definition construct (port : Z) (sys : socket.sys_results)
  : outcome state * list socket.sys_call :=
  match socket.construct port sys with
  | (Returned (sock, _), calls) =>
      (Returned {| m_socket := sock;
                   m_routes := map.empty;
                   m_server_thread := not_a_thread;
                   m_running := false |}, calls)
  | (Threw e, calls) => (Threw e, calls)
  end.

Inductive teardown_step :=
| life_step (e : effect)
| socket_step (c : socket.sys_call).

(** [server::~server()]: [stop()], then the members are destroyed in
    reverse order of declaration. Destroying a [std::thread] that is
    still joinable calls [std::terminate]: [None]. *)
Definition destroy (self : state) : option (list teardown_step) :=
  let (self, effects) := stop self in
  if joinable (m_server_thread self) then None
  else Some (List.map life_step effects
               ++ List.map socket_step (socket.destroy (m_socket self)))%list.

End server.

(** ** The example application ([example/main.cpp]) *)

Module example.

(** The double quote character. *)
Definition DQ : string := String "034" "".

Definition index_page : string :=
  "
<!DOCTYPE html>
<html>
<head>
    <title>GeHTTP Server</title>
    <style>
        body { font-family: Arial, sans-serif; margin: 40px; }
        .container { max-width: 600px; margin: 0 auto; }
        .endpoint { background: #f5f5f5; padding: 10px; margin: 10px 0; border-radius: 5px; }
    </style>
</head>
<body>
    <div class="
  ++ DQ
  ++ "container"
  ++ DQ
  ++ ">
        <p>Server is running successfully!</p>
        <h2>Available Endpoints:</h2>
        <div class="
  ++ DQ
  ++ "endpoint"
  ++ DQ
  ++ "><strong>GET /</strong> - This page</div>
        <div class="
  ++ DQ
  ++ "endpoint"
  ++ DQ
  ++ "><strong>GET /api/status</strong> - Server status (JSON)</div>
        <div class="
  ++ DQ
  ++ "endpoint"
  ++ DQ
  ++ "><strong>GET /api/time</strong> - Current time (JSON)</div>
        <div class="
  ++ DQ
  ++ "endpoint"
  ++ DQ
  ++ "><strong>POST /api/echo</strong> - Echo request data</div>
        <div class="
  ++ DQ
  ++ "endpoint"
  ++ DQ
  ++ "><strong>GET /hello/:name</strong> - Personalized greeting</div>
    </div>
</body>
</html>
            ".

Definition status_json : string :=
  "{"
  ++ DQ
  ++ "status"
  ++ DQ
  ++ ": "
  ++ DQ
  ++ "running"
  ++ DQ
  ++ ", "
  ++ DQ
  ++ "server"
  ++ DQ
  ++ ": "
  ++ DQ
  ++ "GeHTTP"
  ++ DQ
  ++ "}".

Definition hello_head : string :=
  "
<!DOCTYPE html>
<html>
<head>
    <title>Hello ".

Definition hello_mid : string :=
  "</title>
    <style>
        body { font-family: Arial, sans-serif; text-align: center; margin-top: 100px; }
        h1 { color: #333; }
    </style>
</head>
<body>
    <h1>Hello, ".

Definition hello_tail : string :=
  "!</h1>
    <p><a href="
  ++ DQ
  ++ "/"
  ++ DQ
  ++ ">← Back to home</a></p>
</body>
</html>
            ".

(** [app.get("/", ...)] *)
Definition index_handler : RequestHandler :=
  fun req =>
    let html := index_page in
    Returned (server.html html 200).

(** [app.get("/api/status", ...)] *)
Definition status_handler : RequestHandler :=
  fun req => Returned (server.json status_json 200).

(** [app.get("/api/time", ...)], where [now] is what [std::time]
    returns during the call. *)
Definition time_handler (now : Z) : RequestHandler :=
  fun req =>
    Returned
      (server.json
         (("{"
          ++ DQ
          ++ "timestamp"
          ++ DQ
          ++ ": ") ++ Str.of_int now ++ "}") 200).

(** [app.post("/api/echo", ...)] *)
Definition echo_handler : RequestHandler :=
  fun req =>
    let response :=
      ("{"
        ++ DQ
        ++ "method"
        ++ DQ
        ++ ": "
        ++ DQ) ++ Req.method req
        ++ (DQ
        ++ ", "
        ++ DQ
        ++ "path"
        ++ DQ
        ++ ": "
        ++ DQ) ++ Req.path req
        ++ (DQ
        ++ ", "
        ++ DQ
        ++ "body"
        ++ DQ
        ++ ": "
        ++ DQ) ++ Req.body req
        ++ (DQ
        ++ "}") in
    Returned (server.json response 200).

(** The page of the [/hello] handler for a name. *)
Definition hello_page (name : string) : string :=
  hello_head ++ name ++ hello_mid ++ name ++ hello_tail.

(** [app.get("/hello", ...)] *)
Definition hello_handler : RequestHandler :=
  fun req =>
    let name := "World" in
    let name :=
      match Str.find "?" (Req.path req) with
      | Some query_pos =>
          let query := Str.substr_from (Req.path req) (query_pos + 1) in
          match Str.find_str "name=" query with
          | Some name_pos => Str.substr_from query (name_pos + 5)
          | None => name
          end
      | None => name
      end in
    let html := hello_page name in
    Returned (server.html html 200).

(** The route table after the five registrations of [main]. *)
Definition routes (now : Z) : server.Routes :=
  let app := map.empty in
  let app := server.get "/" index_handler app in
  let app := server.get "/api/status" status_handler app in
  let app := server.get "/api/time" (time_handler now) app in
  let app := server.post "/api/echo" echo_handler app in
  server.get "/hello" hello_handler app.

End example.

(** * The vocabulary of the specification *)

(** ** Serialisation *)

Definition header_line (header : string * string) : string :=
  fst header ++ ": " ++ snd header ++ CRLF.

(** The part of the output that precedes the synthesized header: the
    status line and one line per entry of the header map. *)
Definition response_head (response : HttpResponse) : string :=
  "HTTP/1.1 " ++ Str.of_int (Resp.status_code response) ++ " "
    ++ Resp.status_text response ++ CRLF
    ++ String.concat "" (List.map header_line (entries (Resp.headers response))).

(** The reading of "the synthesized value overrides a caller-set one":
    a [Content-Length] value set by the handler that differs from the
    body length does not occur as a header line of the output. *)
Definition caller_content_length_suppressed (response : HttpResponse) : Prop :=
  forall v,
    map.get (Resp.headers response) "Content-Length" = Some v ->
    v <> Str.of_size_t (String.length (Resp.body response)) ->
    ~ exists a b,
        socket.buildResponse response = a ++ ("Content-Length: " ++ v ++ CRLF) ++ b.

Definition response_with_content_length : HttpResponse :=
  {| Resp.status_code := 200;
     Resp.status_text := "OK";
     Resp.headers := map.put map.empty "Content-Length" "999";
     Resp.body := "abc" |}.

(** Byte-wise lexicographic order: [a] is a proper prefix of [b], or at
    the first position where they differ the byte of [a] is the smaller
    one (bytes compared as unsigned numbers). *)
Definition lex_lt (a b : string) : Prop :=
  (exists s, s <> "" /\ b = a ++ s)
  \/ (exists p c d a' b',
        a = p ++ String c a' /\ b = p ++ String d b'
        /\ (N_of_ascii c < N_of_ascii d)%N).

(** ** Routing *)

(** The handler the route table holds for a method and a path. *)
Definition lookup_route (m_routes : server.Routes) (method path : string)
  : option RequestHandler :=
  match map.get m_routes method with
  | Some sub => map.get sub path
  | None => None
  end.

(** The four registration operations of the public interface. *)
Inductive verb := GET | POST | PUT | DELETE.

Definition verb_name (v : verb) : string :=
  match v with
  | GET => "GET"
  | POST => "POST"
  | PUT => "PUT"
  | DELETE => "DELETE"
  end.

Record registration := {
  reg_verb : verb;
  reg_path : string;
  reg_handler : RequestHandler
}.

Definition register (m_routes : server.Routes) (r : registration)
  : server.Routes :=
  match reg_verb r with
  | GET => server.get (reg_path r) (reg_handler r) m_routes
  | POST => server.post (reg_path r) (reg_handler r) m_routes
  | PUT => server.put (reg_path r) (reg_handler r) m_routes
  | DELETE => server.del (reg_path r) (reg_handler r) m_routes
  end.

(** A later registration that targets another (method, path) pair. *)
Definition elsewhere (method path : string) (r : registration) : Prop :=
  (verb_name (reg_verb r), reg_path r) <> (method, path).

(** Two handlers of the specification's end-to-end scenarios. *)
Definition hi_handler : RequestHandler :=
  fun _ => Returned (server.html "<h1>Hi</h1>" 200).

Definition echo_handler : RequestHandler :=
  fun request => Returned (server.text (Req.body request) 200).

(** ** Parsing *)

(** The request line: the first line of the input, if any. *)
Definition request_line (raw : string) : string :=
  hd "" (socket.lines raw).

Definition is_terminator (line : string) : bool :=
  String.eqb line (String CR "").

(** The lines before and after the first line that consists solely of
    a carriage return. *)
Fixpoint before_terminator (ls : list string) : list string :=
  match ls with
  | [] => []
  | l :: ls' => if is_terminator l then [] else l :: before_terminator ls'
  end.

Fixpoint after_terminator (ls : list string) : list string :=
  match ls with
  | [] => []
  | l :: ls' => if is_terminator l then ls' else after_terminator ls'
  end.

(** The header lines: between the request line and the terminator. *)
Definition header_lines (raw : string) : list string :=
  before_terminator (tl (socket.lines raw)).

(** The body lines: all lines after the terminator. *)
Definition body_lines (raw : string) : list string :=
  after_terminator (tl (socket.lines raw)).

(** A line without the carriage return that ends it, if there is one. *)
Fixpoint chomp (line : string) : string :=
  match line with
  | "" => ""
  | String c "" => if Ascii.eqb c CR then "" else line
  | String c s => String c (chomp s)
  end.

Definition no_colon (k : string) : Prop :=
  forall a b, k <> a ++ String ":" b.

Definition strip_one_space (s : string) : string :=
  match s with
  | String " " s' => s'
  | _ => s
  end.

(** [line] is a header line that gives the name [k] the value [v]: the
    name is everything before the first colon, the value everything
    after it less one leading space. *)
Definition header_field (line k v : string) : Prop :=
  exists rest,
    chomp line = k ++ String ":" rest /\ no_colon k /\ v = strip_one_space rest.

(** Among the lines [ls], the last one that names [k] gives it [v]. *)
Definition last_field (ls : list string) (k v : string) : Prop :=
  exists before line after,
    ls = (before ++ line :: after)%list
    /\ header_field line k v
    /\ forall l v', In l after -> ~ header_field l k v'.

(** The pieces of a string between white-space characters, and the
    tokens: the pieces that are not empty. *)
Fixpoint split_ws (s : string) : list string :=
  match s with
  | "" => [""]
  | String c s' =>
      if isspace c then "" :: split_ws s'
      else String c (hd "" (split_ws s')) :: tl (split_ws s')
  end.

Definition whitespace_tokens (s : string) : list string :=
  filter (fun w => negb (Str.empty w)) (split_ws s).

(** The tokens still to be read from a stream. *)
Definition pending_tokens (stream : option string) : list string :=
  match stream with
  | None => []
  | Some s => whitespace_tokens s
  end.

(** The lines on which [parseRequest] calls [back()]: the request line
    and the header lines. The input has no blank line when none of them
    is empty. *)
Definition inspected_lines (raw : string) : list string :=
  match socket.lines raw with
  | [] => []
  | l :: ls => l :: before_terminator ls
  end.

Definition no_blank_line (raw : string) : Prop :=
  Forall (fun l => l <> "") (inspected_lines raw).

(** Two inputs: a request with a repeated header, a line without a
    colon and a two-line body; and a request line with two tokens. *)
Definition sample_request : string :=
  "POST  /echo?x=1 HTTP/1.1" ++ CRLF
    ++ "Host: a:b" ++ CRLF
    ++ "no colon here" ++ CRLF
    ++ "X-Pad:  y" ++ CRLF
    ++ "Host:c" ++ CRLF
    ++ CRLF
    ++ "abc" ++ String LF "def" ++ String LF "".

Definition short_request : string := "GET /" ++ CRLF.

(** Two responses that set the same three headers in different
    orders. *)
Definition headers_set_ba : HttpResponse :=
  {| Resp.status_code := 200;
     Resp.status_text := "OK";
     Resp.headers :=
       map.put (map.put (map.put map.empty "X-Powered-By" "y")
                  "Server" "x") "Content-Type" "text/plain";
     Resp.body := "" |}.

Definition headers_set_ab : HttpResponse :=
  {| Resp.status_code := 200;
     Resp.status_text := "OK";
     Resp.headers :=
       map.put (map.put (map.put map.empty "Content-Type" "text/plain")
                  "X-Powered-By" "y") "Server" "x";
     Resp.body := "" |}.

(** The order of two entries of a [std::map]: the order of their keys. *)
Definition key_ltb {V} (e1 e2 : string * V) : bool :=
  coqutil.Datatypes.String.ltb (fst e1) (fst e2).


(** ** Well-formed request texts *)

Fixpoint all_chars (P : ascii -> bool) (s : string) : bool :=
  match s with
  | "" => true
  | String c s' => P c && all_chars P s'
  end.

Definition not_lf (c : ascii) : bool := negb (Ascii.eqb c LF).
Definition not_nul (c : ascii) : bool := negb (Ascii.eqb c NUL).
Definition not_space (c : ascii) : bool := negb (isspace c).
Definition name_char (c : ascii) : bool :=
  negb (Ascii.eqb c LF) && negb (Ascii.eqb c ":").

(** A token of the request line: not empty, no white space. *)
Definition is_token (s : string) : Prop :=
  s <> "" /\ all_chars not_space s = true.

(** A header a client can send on one line: no LF in the name or the
    value, no colon in the name. *)
Definition sendable (h : string * string) : Prop :=
  all_chars name_char (fst h) = true /\ all_chars not_lf (snd h) = true.

Fixpoint header_block (hs : list (string * string)) : string :=
  match hs with
  | [] => ""
  | h :: hs' => header_line h ++ header_block hs'
  end.

(** A header line as [getline] delivers it: without the LF. *)
Definition sent_line (h : string * string) : string :=
  fst h ++ ": " ++ snd h ++ String CR "".

(** The text of a request as a client writes it: the request line, one
    line per header, a blank line and the body; lines end in CR LF. *)
Definition request_text (m p v : string) (hs : list (string * string))
    (b : string) : string :=
  (m ++ " " ++ p ++ " " ++ v) ++ CRLF ++ header_block hs ++ CRLF ++ b.

(** The header map after the assignments [headers[k] = v] in order. *)
Definition assign_all (hs : list (string * string)) (hdrs : Headers)
  : Headers :=
  fold_left (fun h kv => map.put h (fst kv) (snd kv)) hs hdrs.

(** A string without the LF that ends it, if there is one. *)
Fixpoint chop_lf (s : string) : string :=
  match s with
  | "" => ""
  | String c "" => if Ascii.eqb c LF then "" else s
  | String c s' => String c (chop_lf s')
  end.

(** What [parseRequest] returns on [sample_request]. *)
Definition sample_parsed : HttpRequest :=
  {| Req.method := "POST"; Req.path := "/echo?x=1";
     Req.version := "HTTP/1.1";
     Req.headers := map.put (map.put map.empty "Host" "c") "X-Pad" " y";
     Req.body := "abc" ++ String LF "def" |}.



(** ** The route table as a list of registrations *)

(** The registration targets the request's method and path. *)
Definition targets (request : HttpRequest) (r : registration) : bool :=
  String.eqb (verb_name (reg_verb r)) (Req.method request)
  && String.eqb (reg_path r) (Req.path request).

(** The route table of a server on which the registrations were made in
    order, starting from a fresh one. *)
Definition routes_of (regs : list registration) : server.Routes :=
  fold_left register regs map.empty.

(** ** Responses whose header section stays on its lines *)

(** Neither the name nor the value of the header contains an LF. *)
Definition lf_free (h : string * string) : Prop :=
  all_chars not_lf (fst h) = true /\ all_chars not_lf (snd h) = true.

(** The status line, without its LF. *)
Definition status_line (response : HttpResponse) : string :=
  ("HTTP/1.1 " ++ Str.of_int (Resp.status_code response) ++ " "
     ++ Resp.status_text response) ++ String CR "".

(** The line of the synthesized header, without its LF. *)
Definition content_length_line (response : HttpResponse) : string :=
  ("Content-Length: "
     ++ Str.of_size_t (String.length (Resp.body response))) ++ String CR "".

(** ** The life of a server *)

(** The server after a registration. *)
Definition registered (self : server.state) (r : registration)
  : server.state :=
  {| server.m_socket := server.m_socket self;
     server.m_routes := register (server.m_routes self) r;
     server.m_server_thread := server.m_server_thread self;
     server.m_running := server.m_running self |}.

(** The states a server goes through: constructed, then any sequence
    of registrations, [start] (when it returns) and [stop]. *)
Inductive reachable : server.state -> Prop :=
| reach_construct port sys self calls :
    server.construct port sys = (Returned self, calls) -> reachable self
| reach_register self r :
    reachable self -> reachable (registered self r)
| reach_start self self' effects :
    reachable self -> server.start self = Some (self', effects) ->
    reachable self'
| reach_stop self :
    reachable self -> reachable (fst (server.stop self)).

(** The descriptor of the server's listening socket. *)
Definition listen_fd (self : server.state) : Z :=
  socket.m_socket_fd (server.m_socket self).

(** System call results with which construction succeeds, and the
    server constructed on port 8080 with them, fresh and started. *)
Definition sys_ok : socket.sys_results :=
  {| socket.socket_ret := 3; socket.setsockopt_ret := 0;
     socket.bind_ret := 0; socket.listen_ret := 0 |}.

Definition fresh_server : server.state :=
  {| server.m_socket :=
       {| socket.m_port := 8080; socket.m_socket_fd := 3;
          socket.m_running := false |};
     server.m_routes := map.empty;
     server.m_server_thread := server.not_a_thread;
     server.m_running := false |}.

Definition started_server : server.state :=
  {| server.m_socket := server.m_socket fresh_server;
     server.m_routes := map.empty;
     server.m_server_thread := server.running_thread;
     server.m_running := true |}.


(** ** The example application, as a table *)

Definition not_question (c : ascii) : bool := negb (Ascii.eqb c "?").

(** What the example application answers, by method and path. *)
Definition example_reply (now : Z) (request : HttpRequest)
  : outcome HttpResponse :=
  let m := Req.method request in
  let p := Req.path request in
  if String.eqb m "GET" then
    if String.eqb p "/" then example.index_handler request
    else if String.eqb p "/api/status" then example.status_handler request
    else if String.eqb p "/api/time" then example.time_handler now request
    else if String.eqb p "/hello"
         then Returned (server.html (example.hello_page "World") 200)
    else Returned not_found
  else if String.eqb m "POST" && String.eqb p "/api/echo"
       then example.echo_handler request
  else Returned not_found.

(** * Properties *)

(** ** Strings *)

Lemma append_assoc (a b c : string) : (a ++ b) ++ c = a ++ (b ++ c).
Proof. induction a as [|x a IH]; simpl; [reflexivity | now rewrite IH]. Qed.

Lemma append_nil_r (a : string) : a ++ "" = a.
Proof. induction a as [|x a IH]; simpl; [reflexivity | now rewrite IH]. Qed.

Lemma find_lt_length (c : ascii) (s : string) : forall n,
  Str.find c s = Some n -> n < String.length s.
Proof.
  induction s as [|d s IH]; intros n; cbn; [discriminate|].
  destruct (Ascii.eqb d c); [intros [= <-]; lia|].
  destruct (Str.find c s) as [m|]; [|discriminate].
  intros [= <-]. specialize (IH m eq_refl). lia.
Qed.

(** ** Maps *)

Lemma get_entries {V} (m : SortedListString.map V) (k : string) (v : V) :
  map.get m k = Some v -> In (k, v) (entries m).
Proof.
  unfold entries. destruct m as [l Hl]. cbn. clear Hl.
  unfold SortedList.lookup.
  destruct (List.find _ l) as [[k' v']|] eqn:E; [|discriminate].
  intros [= ->]. apply find_some in E. destruct E as [Hin Heq]. cbn in Heq.
  apply (@SortedList.eqb_true (SortedListString.Build_parameters V)
           SortedListString.string_strict_order) in Heq.
  now subst.
Qed.

(** ** Serialisation *)

Lemma fold_header_lines (l : list (string * string)) (out : string) :
  fold_left (fun out header => out ++ fst header ++ ": " ++ snd header ++ CRLF)
    l out
  = out ++ String.concat "" (List.map header_line l).
Proof.
  revert out. induction l as [|h l IH]; intros out; simpl.
  - now rewrite append_nil_r.
  - rewrite IH, append_assoc. f_equal.
    destruct l; simpl; [now rewrite append_nil_r | reflexivity].
Qed.

Lemma write_headers_lines (hdrs : Headers) (out : string) :
  socket.write_headers hdrs out
  = out ++ String.concat "" (List.map header_line (entries hdrs)).
Proof. apply fold_header_lines. Qed.

Lemma concat_lines_in (l : list (string * string)) (h : string * string) :
  In h l ->
  exists a b, String.concat "" (List.map header_line l) = a ++ header_line h ++ b.
Proof.
  induction l as [|x l IH]; [intros []|].
  intros [->|Hin].
  - exists "", (String.concat "" (List.map header_line l)).
    destruct l; simpl; [now rewrite append_nil_r | reflexivity].
  - destruct (IH Hin) as (a & b & E).
    exists (header_line x ++ a), b.
    destruct l as [|y l]; [destruct Hin|].
    change (String.concat "" (List.map header_line (x :: y :: l)))
      with (header_line x ++ String.concat "" (List.map header_line (y :: l))).
    now rewrite E, append_assoc.
Qed.

Lemma buildResponse_layout (response : HttpResponse) :
  socket.buildResponse response
  = response_head response
      ++ "Content-Length: "
      ++ Str.of_size_t (String.length (Resp.body response)) ++ CRLF
      ++ CRLF ++ Resp.body response.
Proof.
  unfold socket.buildResponse, response_head.
  rewrite write_headers_lines.
  repeat rewrite append_assoc. reflexivity.
Qed.

(** C1, as amended. The output of [buildResponse] ends with a
    synthesized [Content-Length] header whose value is the decimal byte
    length of the body, followed by the blank line and the body. Every
    entry of the response's header map, a [Content-Length] entry set by
    the handler included, is written as a header line before it. *)
Theorem buildResponse_appends_content_length (response : HttpResponse) :
  exists head,
    socket.buildResponse response
    = head ++ "Content-Length: "
        ++ Str.of_size_t (String.length (Resp.body response)) ++ CRLF
        ++ CRLF ++ Resp.body response
    /\ forall k v,
         map.get (Resp.headers response) k = Some v ->
         exists a b, head = a ++ (k ++ ": " ++ v ++ CRLF) ++ b.
Proof.
  exists (response_head response). split.
  - apply buildResponse_layout.
  - intros k v Hget. apply get_entries in Hget.
    destruct (concat_lines_in _ _ Hget) as (a & b & E).
    exists ("HTTP/1.1 " ++ Str.of_int (Resp.status_code response) ++ " "
              ++ Resp.status_text response ++ CRLF ++ a), b.
    unfold response_head. rewrite E. unfold header_line. cbn [fst snd].
    repeat rewrite append_assoc. reflexivity.
Qed.

(** A handler that sets [Content-Length: 999] on a three-byte body gets
    both its own line and the synthesized one in the output. *)
Lemma caller_content_length_is_emitted :
  socket.buildResponse response_with_content_length
  = "HTTP/1.1 200 OK" ++ CRLF
      ++ "Content-Length: 999" ++ CRLF
      ++ "Content-Length: 3" ++ CRLF
      ++ CRLF ++ "abc"
  /\ ~ caller_content_length_suppressed response_with_content_length.
Proof.
  split; [reflexivity|].
  intros H. apply (H "999"); [reflexivity | discriminate |].
  exists ("HTTP/1.1 200 OK" ++ CRLF), ("Content-Length: 3" ++ CRLF ++ CRLF ++ "abc").
  reflexivity.
Qed.

(** ** The per-connection sequence *)

(** Whatever response the callback returns is sent as [buildResponse]
    writes it. *)
Lemma handleClient_sends_response
    (handler : RequestHandler) (bytes_read : Z) (buffer : string)
    (request : HttpRequest) (response : HttpResponse) :
  (0 < bytes_read)%Z ->
  socket.parseRequest (Str.c_str buffer) = Some request ->
  handler request = Returned response ->
  socket.handleClient handler bytes_read buffer
  = socket.Done [socket.Send (socket.buildResponse response); socket.Close].
Proof.
  intros Hread Hparse Hret. unfold socket.handleClient.
  destruct (Z.leb_spec bytes_read 0) as [Hle|_]; [lia|].
  now rewrite Hparse, Hret.
Qed.

(** C2, as amended. When the dispatch callback throws an exception of a
    class derived from [std::exception], [handleClient] sends exactly
    the fixed 500 response and closes the connection; nothing leaves
    the connection handler. The fixed response has the status line
    [HTTP/1.1 500 Internal Server Error], the headers
    [Content-Type: text/plain] and [Content-Length: 21], and the
    21-byte body [Internal Server Error]. *)
Theorem handleClient_std_exception
    (handler : RequestHandler) (bytes_read : Z) (buffer : string)
    (request : HttpRequest) (what : string) :
  (0 < bytes_read)%Z ->
  socket.parseRequest (Str.c_str buffer) = Some request ->
  handler request = Threw (StdException what) ->
  socket.handleClient handler bytes_read buffer
  = socket.Done [socket.Send socket.error_response; socket.Close]
  /\ socket.error_response
     = "HTTP/1.1 500 Internal Server Error" ++ CRLF
         ++ "Content-Type: text/plain" ++ CRLF
         ++ "Content-Length: "
         ++ Str.of_size_t (String.length "Internal Server Error") ++ CRLF
         ++ CRLF ++ "Internal Server Error"
  /\ Str.of_size_t (String.length "Internal Server Error") = "21".
Proof.
  intros Hread Hparse Hthrow. split; [|split; reflexivity].
  unfold socket.handleClient.
  destruct (Z.leb_spec bytes_read 0) as [Hle|_]; [lia|].
  now rewrite Hparse, Hthrow.
Qed.

Lemma handleClient_std_exception_witness :
  socket.handleClient (fun _ => Threw (StdException "boom")) 18
    ("GET / HTTP/1.1" ++ CRLF ++ CRLF)
  = socket.Done [socket.Send socket.error_response; socket.Close]
  /\ socket.error_response
     = "HTTP/1.1 500 Internal Server Error" ++ CRLF
         ++ "Content-Type: text/plain" ++ CRLF
         ++ "Content-Length: "
         ++ Str.of_size_t (String.length "Internal Server Error") ++ CRLF
         ++ CRLF ++ "Internal Server Error"
  /\ Str.of_size_t (String.length "Internal Server Error") = "21".
Proof.
  eapply (handleClient_std_exception _ 18 _ _ "boom");
    [reflexivity | vm_compute; reflexivity | reflexivity].
Defined.

(** C2 as the specification words it fails for a callback that throws
    a value whose type is not derived from [std::exception]: the
    [catch] clause does not match, no response is sent and the
    exception leaves [handleClient]. *)
Lemma other_exception_escapes :
  socket.handleClient (fun _ => Threw OtherThrown) 18
    ("GET / HTTP/1.1" ++ CRLF ++ CRLF)
  = socket.Uncaught OtherThrown
  /\ socket.handleClient (fun _ => Threw OtherThrown) 18
       ("GET / HTTP/1.1" ++ CRLF ++ CRLF)
     <> socket.Done [socket.Send socket.error_response; socket.Close].
Proof. split; [reflexivity | discriminate]. Qed.

(** ** Routing *)

Lemma routeRequest_lookup (m_routes : server.Routes) (request : HttpRequest) :
  server.routeRequest m_routes request
  = match lookup_route m_routes (Req.method request) (Req.path request) with
    | Some route => route request
    | None => Returned not_found
    end.
Proof.
  unfold server.routeRequest, lookup_route.
  destruct (map.get m_routes (Req.method request)); reflexivity.
Qed.

Lemma lookup_assign_same (m_routes : server.Routes) method path handler :
  lookup_route (server.assign_route method path handler m_routes) method path
  = Some handler.
Proof.
  unfold lookup_route, server.assign_route.
  now rewrite !map.get_put_same.
Qed.

Lemma lookup_assign_other (m_routes : server.Routes)
    method path handler method' path' :
  (method', path') <> (method, path) ->
  lookup_route (server.assign_route method path handler m_routes) method' path'
  = lookup_route m_routes method' path'.
Proof.
  intros Hne. unfold lookup_route, server.assign_route.
  destruct (String.eqb_spec method' method) as [->|Hm].
  - rewrite map.get_put_same.
    assert (path' <> path) by congruence.
    rewrite map.get_put_diff by assumption.
    destruct (map.get m_routes method); [reflexivity | apply map.get_empty].
  - now rewrite map.get_put_diff.
Qed.

Lemma register_assign m_routes r :
  register m_routes r
  = server.assign_route (verb_name (reg_verb r)) (reg_path r) (reg_handler r)
      m_routes.
Proof. unfold register. now destruct (reg_verb r). Qed.

Lemma lookup_after_registrations later : forall m_routes method path,
  Forall (elsewhere method path) later ->
  lookup_route (fold_left register later m_routes) method path
  = lookup_route m_routes method path.
Proof.
  induction later as [|r later IH]; intros m_routes method path Hall;
    [reflexivity|].
  inversion Hall as [|? ? Hr Hlater]; subst. cbn [fold_left].
  rewrite IH by assumption.
  rewrite register_assign. apply lookup_assign_other.
  intros E. apply Hr. now symmetry.
Qed.

(** C3. After a handler [h] is registered under a method and a path
    (through [get], [post], [put] or [del]), on any route table and
    whatever is registered afterwards under other (method, path) pairs,
    dispatching a request whose method and path fields equal that
    method and path returns [h request] itself: the handler's response
    with its status code, status text, headers and body. *)
Theorem registered_handler_is_dispatched
    (m_routes : server.Routes) (r : registration) (later : list registration)
    (request : HttpRequest) :
  Forall (elsewhere (verb_name (reg_verb r)) (reg_path r)) later ->
  Req.method request = verb_name (reg_verb r) ->
  Req.path request = reg_path r ->
  server.routeRequest (fold_left register later (register m_routes r)) request
  = reg_handler r request.
Proof.
  intros Hlater Hm Hp.
  rewrite routeRequest_lookup, Hm, Hp.
  rewrite lookup_after_registrations by assumption.
  now rewrite register_assign, lookup_assign_same.
Qed.

Lemma registered_handler_is_dispatched_witness :
  server.routeRequest
    (fold_left register
       [ {| reg_verb := POST; reg_path := "/echo"; reg_handler := echo_handler |};
         {| reg_verb := GET; reg_path := "/other"; reg_handler := echo_handler |} ]
       (register map.empty
          {| reg_verb := GET; reg_path := "/"; reg_handler := hi_handler |}))
    {| Req.method := "GET"; Req.path := "/"; Req.version := "HTTP/1.1";
       Req.headers := map.empty; Req.body := "" |}
  = Returned (server.html "<h1>Hi</h1>" 200).
Proof.
  apply (registered_handler_is_dispatched map.empty
           {| reg_verb := GET; reg_path := "/"; reg_handler := hi_handler |}).
  - repeat constructor; unfold elsewhere; simpl; discriminate.
  - reflexivity.
  - reflexivity.
Defined.

(** C4. When the route table has no entry for the request's method, or
    that method's sub-table has no entry for the request's path,
    [routeRequest] returns the fixed response: status 404 [Not Found],
    the single header [Content-Type: text/html] and the fixed HTML
    body. Nothing in it depends on the request. *)
Theorem unregistered_route_is_not_found
    (m_routes : server.Routes) (request : HttpRequest) :
  map.get m_routes (Req.method request) = None
  \/ (exists sub, map.get m_routes (Req.method request) = Some sub
                  /\ map.get sub (Req.path request) = None) ->
  exists response,
    server.routeRequest m_routes request = Returned response
    /\ Resp.status_code response = 404%Z
    /\ Resp.status_text response = "Not Found"
    /\ entries (Resp.headers response) = [("Content-Type", "text/html")]
    /\ Resp.body response = "<html><body><h1>404 - Not Found</h1></body></html>".
Proof.
  intros H. exists not_found. split; [|repeat split].
  unfold server.routeRequest.
  destruct H as [-> | (sub & -> & ->)]; reflexivity.
Qed.

Lemma unregistered_route_is_not_found_witness :
  exists response,
    server.routeRequest (server.get "/" hi_handler map.empty)
      {| Req.method := "GET"; Req.path := "/missing"; Req.version := "HTTP/1.1";
         Req.headers := map.put map.empty "Host" "example";
         Req.body := "ignored" |}
    = Returned response
    /\ Resp.status_code response = 404%Z
    /\ Resp.status_text response = "Not Found"
    /\ entries (Resp.headers response) = [("Content-Type", "text/html")]
    /\ Resp.body response = "<html><body><h1>404 - Not Found</h1></body></html>".
Proof.
  apply unregistered_route_is_not_found.
  right. eexists. split; reflexivity.
Defined.

(** ** Life cycle *)

(** C9. Whatever the state of the server, after one [stop] a second
    [stop] performs no socket or thread operation and leaves every
    member as the first call left it. *)
Theorem stop_twice (self : server.state) :
  server.m_running (fst (server.stop self)) = false
  /\ server.stop (fst (server.stop self)) = (fst (server.stop self), []).
Proof.
  unfold server.stop.
  destruct (server.m_running self) eqn:Hrun.
  - destruct (socket.stop (server.m_socket self)) as [sock calls].
    destruct (server.joinable (server.m_server_thread self)); cbn; auto.
  - cbn. rewrite Hrun. auto.
Qed.

(** ** Reading lines *)

Lemma lines_getline (raw : string) :
  socket.lines raw
  = match socket.getline raw with
    | None => []
    | Some (line, rest) => line :: socket.lines rest
    end.
Proof.
  induction raw as [|c s IH]; [reflexivity|].
  cbn [socket.lines socket.getline socket.split_line].
  destruct (Ascii.eqb c LF); [reflexivity|].
  rewrite IH. destruct s as [|d s']; [reflexivity|].
  cbn [socket.getline]. now destruct (socket.split_line (String d s')).
Qed.

Lemma back_cons (c d : ascii) (s : string) :
  Str.back (String c (String d s)) = Str.back (String d s).
Proof. reflexivity. Qed.

Lemma strip_cr_empty : socket.strip_cr "" = None.
Proof. reflexivity. Qed.

Lemma strip_cr_chomp (line : string) :
  line <> "" -> socket.strip_cr line = Some (chomp line).
Proof.
  induction line as [|c s IH]; [congruence|]. intros _.
  destruct s as [|d s'].
  - unfold socket.strip_cr. cbn. now destruct (Ascii.eqb c CR).
  - assert (Hs : String d s' <> "") by discriminate.
    specialize (IH Hs). unfold socket.strip_cr in *.
    rewrite back_cons.
    destruct (Str.back (String d s')) as [e|]; [|discriminate].
    change (chomp (String c (String d s')))
      with (String c (chomp (String d s'))).
    destruct (Ascii.eqb e CR).
    + change (Str.pop_back (String c (String d s')))
        with (match Str.pop_back (String d s') with
              | None => Some ""
              | Some t => Some (String c t)
              end).
      now rewrite IH.
    + injection IH as IH. do 2 f_equal. exact IH.
Qed.

(** ** White-space tokens *)

Lemma split_ws_read_word (s : string) :
  hd "" (split_ws s) = fst (socket.read_word s)
  /\ filter (fun w => negb (Str.empty w)) (tl (split_ws s))
     = whitespace_tokens (snd (socket.read_word s)).
Proof.
  induction s as [|c s [IHhd IHtl]]; [split; reflexivity|].
  cbn [split_ws socket.read_word].
  destruct (isspace c) eqn:Hc.
  - split; [reflexivity|]. cbn [tl snd]. unfold whitespace_tokens.
    cbn [split_ws]. rewrite Hc. reflexivity.
  - destruct (socket.read_word s) as [w r]. cbn [hd tl fst snd] in *.
    split; [now rewrite IHhd | assumption].
Qed.

Lemma whitespace_tokens_skip (s : string) :
  whitespace_tokens s
  = match socket.skipws s with
    | "" => []
    | String a s0 =>
        fst (socket.read_word (String a s0))
          :: whitespace_tokens (snd (socket.read_word (String a s0)))
    end.
Proof.
  induction s as [|c s IH]; [reflexivity|].
  cbn [socket.skipws]. destruct (isspace c) eqn:Hc.
  - etransitivity; [|exact IH].
    unfold whitespace_tokens. cbn [split_ws]. now rewrite Hc.
  - destruct (split_ws_read_word (String c s)) as [Hhd Htl].
    rewrite <- Hhd, <- Htl. unfold whitespace_tokens.
    cbn [split_ws]. rewrite Hc. reflexivity.
Qed.

Lemma extract_tokens (stream : option string) (target : string) :
  fst (socket.extract stream target) = hd target (pending_tokens stream)
  /\ pending_tokens (snd (socket.extract stream target))
     = tl (pending_tokens stream).
Proof.
  destruct stream as [s|]; [|split; reflexivity].
  unfold socket.extract. cbn [pending_tokens].
  rewrite (whitespace_tokens_skip s).
  destruct (socket.skipws s) as [|c s'] eqn:E; [split; reflexivity|].
  destruct (socket.read_word (String c s')) as [w r]. split; reflexivity.
Qed.

Lemma read_request_line_tokens (line : string) :
  let request := socket.read_request_line line socket.HttpRequest_init in
  let tokens := whitespace_tokens line in
  Req.method request = nth 0 tokens ""
  /\ Req.path request = nth 1 tokens ""
  /\ Req.version request = nth 2 tokens ""
  /\ Req.headers request = map.empty
  /\ Req.body request = "".
Proof.
  cbv zeta. unfold socket.read_request_line.
  cbn [Req.method Req.path Req.version socket.HttpRequest_init].
  destruct (extract_tokens (Some line) "") as [H1 T1].
  destruct (socket.extract (Some line) "") as [m st1]. cbn [fst snd] in *.
  destruct (extract_tokens st1 "") as [H2 T2].
  destruct (socket.extract st1 "") as [p st2]. cbn [fst snd] in *.
  destruct (extract_tokens st2 "") as [H3 T3].
  destruct (socket.extract st2 "") as [v st3]. cbn [fst snd] in *.
  cbn [Req.method Req.path Req.version Req.headers Req.body].
  subst m p v. rewrite T2, T1. cbn [pending_tokens].
  destruct (whitespace_tokens line) as [|a [|b [|c l]]]; repeat split.
Qed.

Lemma split_ws_cons (s : string) :
  split_ws s = hd "" (split_ws s) :: tl (split_ws s).
Proof. destruct s as [|c s]; [reflexivity|]. cbn. now destruct (isspace c). Qed.

Lemma split_ws_chomp (s : string) :
  hd "" (split_ws (chomp s)) = hd "" (split_ws s)
  /\ filter (fun w => negb (Str.empty w)) (tl (split_ws (chomp s)))
     = filter (fun w => negb (Str.empty w)) (tl (split_ws s)).
Proof.
  induction s as [|c s [IHhd IHtl]]; [split; reflexivity|].
  destruct s as [|d s'].
  - cbn [chomp]. destruct (Ascii.eqb_spec c CR) as [->|Hc];
      split; reflexivity.
  - change (chomp (String c (String d s')))
      with (String c (chomp (String d s'))).
    remember (String d s') as t. cbn [split_ws].
    destruct (isspace c); cbn [hd tl].
    + split; [reflexivity|].
      rewrite (split_ws_cons (chomp t)), (split_ws_cons t).
      cbn [filter]. now rewrite IHhd, IHtl.
    + split; [now rewrite IHhd | assumption].
Qed.

Lemma whitespace_tokens_chomp (line : string) :
  whitespace_tokens (chomp line) = whitespace_tokens line.
Proof.
  unfold whitespace_tokens.
  destruct (split_ws_chomp line) as [Hhd Htl].
  rewrite (split_ws_cons (chomp line)), (split_ws_cons line).
  cbn [filter]. now rewrite Hhd, Htl.
Qed.

(** ** Header lines *)

Lemma find_colon_split (s : string) : forall n,
  Str.find ":" s = Some n ->
  s = Str.take n s ++ String ":" (Str.drop (n + 1) s)
  /\ no_colon (Str.take n s).
Proof.
  induction s as [|d s IH]; intros n; [discriminate|].
  cbn [Str.find]. destruct (Ascii.eqb_spec d ":") as [->|Hd].
  - intros [= <-]. split; [reflexivity|].
    intros [|x a] b; discriminate.
  - destruct (Str.find ":" s) as [m|]; [|discriminate].
    intros [= <-]. destruct (IH m eq_refl) as [E Hno].
    split.
    + cbn [Str.take Str.drop Nat.add append]. now rewrite <- E.
    + intros [|x a] b; cbn [Str.take append]; intros [= Hx Ht].
      * now apply Hd.
      * now apply (Hno a b).
Qed.

Lemma find_colon_none (s : string) :
  Str.find ":" s = None -> no_colon s.
Proof.
  induction s as [|d s IH]; intros Hf [|x a] b; cbn; try discriminate.
  - intros [= -> _]. cbn in Hf. discriminate.
  - intros [= -> ->]. cbn [Str.find] in Hf.
    destruct (Ascii.eqb x ":"); [discriminate|].
    destruct (Str.find ":" (a ++ String ":" b)) eqn:E; [discriminate|].
    now apply (IH eq_refl a b).
Qed.

Lemma no_colon_tail (x : ascii) (k : string) :
  no_colon (String x k) -> no_colon k.
Proof. intros H a b ->. now apply (H (String x a) b). Qed.

Lemma first_colon_unique (k : string) : forall k' r r',
  k ++ String ":" r = k' ++ String ":" r' ->
  no_colon k -> no_colon k' -> k = k' /\ r = r'.
Proof.
  induction k as [|x k IH]; intros [|y k'] r r' E Hk Hk'; cbn in E.
  - injection E as ->. now split.
  - injection E as <- _. now destruct (Hk' "" k').
  - injection E as -> _. now destruct (Hk "" k).
  - injection E as -> E.
    destruct (IH k' r r' E (no_colon_tail _ _ Hk) (no_colon_tail _ _ Hk'))
      as [-> ->].
    now split.
Qed.

Lemma header_field_functional (line k v k' v' : string) :
  header_field line k v -> header_field line k' v' -> k = k' /\ v = v'.
Proof.
  intros (r & E & Hk & ->) (r' & E' & Hk' & ->).
  rewrite E in E'.
  destruct (first_colon_unique _ _ _ _ E' Hk Hk') as [-> ->]. now split.
Qed.

Lemma read_header_empty (hdrs : Headers) : socket.read_header "" hdrs = None.
Proof. reflexivity. Qed.

Lemma read_header_field (line : string) (hdrs : Headers) :
  line <> "" ->
  (exists k v,
      header_field line k v
      /\ socket.read_header line hdrs = Some (map.put hdrs k v))
  \/ ((forall k v, ~ header_field line k v)
      /\ socket.read_header line hdrs = Some hdrs).
Proof.
  intros Hne. unfold socket.read_header.
  rewrite (strip_cr_chomp line Hne).
  destruct (Str.find ":" (chomp line)) as [n|] eqn:Hfind.
  - left. destruct (find_colon_split _ _ Hfind) as [E Hno].
    exists (Str.take n (chomp line)),
           (strip_one_space (Str.drop (n + 1) (chomp line))).
    split.
    + exists (Str.drop (n + 1) (chomp line)). now repeat split.
    + unfold Str.substr, Str.substr_from.
      replace (Str.drop 0 (chomp line)) with (chomp line)
        by now destruct (chomp line).
      do 2 f_equal. unfold strip_one_space.
      destruct (Str.drop (n + 1) (chomp line)) as [|c r]; [reflexivity|].
      destruct c as [[] [] [] [] [] [] [] []]; reflexivity.
  - right. split; [|reflexivity].
    intros k v (r & E & _). now apply (find_colon_none _ Hfind k r).
Qed.

Lemma header_loop_fields (ls : list string) : forall hdrs : Headers,
  Forall (fun l => l <> "") (before_terminator ls) ->
  exists h : Headers,
    socket.header_loop ls hdrs = Some (h, after_terminator ls)
    /\ forall k v,
         map.get h k = Some v
         <-> (last_field (before_terminator ls) k v
              \/ ((forall l v', In l (before_terminator ls) ->
                                ~ header_field l k v')
                  /\ map.get hdrs k = Some v)).
Proof.
  assert (Hnil : forall (hdrs : Headers) k v,
             map.get hdrs k = Some v
             <-> (last_field [] k v
                  \/ ((forall l v', In l [] -> ~ header_field l k v')
                      /\ map.get hdrs k = Some v))).
  { intros hdrs k v. split.
    - intros H. right. split; [intros l v' []|assumption].
    - intros [(b & l & a & E & _)|[_ H]]; [|assumption].
      now destruct b. }
  induction ls as [|l ls IH]; intros hdrs Hall; cbn [before_terminator
    after_terminator socket.header_loop] in *.
  - exists hdrs. split; [reflexivity | apply Hnil].
  - fold (is_terminator l). destruct (is_terminator l) eqn:Hterm.
    + exists hdrs. split; [reflexivity | apply Hnil].
    + inversion Hall as [|? ? Hl Hrest]; subst.
      destruct (read_header_field l hdrs Hl)
        as [(k0 & v0 & Hf & ->)|[Hnone ->]].
      * destruct (IH (map.put hdrs k0 v0) Hrest) as (h & -> & Hh).
        exists h. split; [reflexivity|]. intros k v. rewrite Hh. split.
        -- intros [(b & x & a & E & Hx & Ha)|[Hno Hget]].
           ++ left. exists (l :: b), x, a. rewrite E. now repeat split.
           ++ destruct (String.eqb_spec k k0) as [->|Hk].
              ** rewrite map.get_put_same in Hget. injection Hget as <-.
                 left. exists [], l, (before_terminator ls).
                 now repeat split.
              ** rewrite map.get_put_diff in Hget by assumption.
                 right. split; [|assumption].
                 intros x v' [<-|Hin] Hx; [|now apply (Hno x v')].
                 destruct (header_field_functional _ _ _ _ _ Hf Hx); congruence.
        -- intros [(b & x & a & E & Hx & Ha)|[Hno Hget]].
           ++ destruct b as [|y b]; cbn in E; injection E as <- E.
              ** subst a.
                 destruct (header_field_functional _ _ _ _ _ Hf Hx) as [-> ->].
                 right. split; [assumption | apply map.get_put_same].
              ** left. exists b, x, a. now repeat split.
           ++ right. split; [intros x v' Hin; apply Hno; now right|].
              rewrite map.get_put_diff; [assumption|].
              intros ->. now apply (Hno l v0); [left|].
      * destruct (IH hdrs Hrest) as (h & -> & Hh).
        exists h. split; [reflexivity|]. intros k v. rewrite Hh. split.
        -- intros [(b & x & a & E & Hx & Ha)|[Hno Hget]].
           ++ left. exists (l :: b), x, a. rewrite E. now repeat split.
           ++ right. split; [|assumption].
              intros x v' [<-|Hin]; [apply Hnone | now apply Hno].
        -- intros [(b & x & a & E & Hx & Ha)|[Hno Hget]].
           ++ destruct b as [|y b]; cbn in E; injection E as <- E.
              ** now destruct (Hnone k v).
              ** left. exists b, x, a. now repeat split.
           ++ right. split; [intros x v' Hin; apply Hno; now right|assumption].
Qed.

Lemma header_loop_blank (ls : list string) : forall hdrs : Headers,
  Exists (fun l => l = "") (before_terminator ls) ->
  socket.header_loop ls hdrs = None.
Proof.
  induction ls as [|l ls IH]; intros hdrs Hex; cbn [before_terminator
    socket.header_loop] in *; [inversion Hex|].
  fold (is_terminator l). destruct (is_terminator l); [inversion Hex|].
  inversion Hex as [? ? ->|? ? Hrest]; subst; [reflexivity|].
  destruct (socket.read_header l hdrs); [now apply IH | reflexivity].
Qed.

(** ** The body *)

Lemma body_loop_join (ls : list string) : forall acc,
  ls <> [] ->
  socket.body_loop ls acc
  = acc ++ String.concat (String LF "") ls ++ String LF "".
Proof.
  induction ls as [|l ls IH]; intros acc Hne; [congruence|].
  cbn [socket.body_loop]. destruct ls as [|l2 ls].
  - reflexivity.
  - rewrite IH by discriminate.
    change (String.concat (String LF "") (l :: l2 :: ls))
      with (l ++ String LF "" ++ String.concat (String LF "") (l2 :: ls)).
    now rewrite !append_assoc.
Qed.

Lemma pop_back_snoc (s : string) (c : ascii) :
  Str.pop_back (s ++ String c "") = Some s.
Proof.
  induction s as [|x s IH]; [reflexivity|].
  cbn [append Str.pop_back]. now rewrite IH.
Qed.

Lemma empty_snoc (s : string) (c : ascii) :
  Str.empty (s ++ String c "") = false.
Proof. now destruct s. Qed.

Lemma body_joined (ls : list string) :
  (if Str.empty (socket.body_loop ls "")
   then Some (socket.body_loop ls "")
   else Str.pop_back (socket.body_loop ls ""))
  = Some (String.concat (String LF "") ls).
Proof.
  destruct ls as [|l ls]; [reflexivity|].
  rewrite body_loop_join by discriminate. cbn [append].
  now rewrite empty_snoc, pop_back_snoc.
Qed.

(** ** [parseRequest] as a whole *)

Lemma parseRequest_defined (raw : string) :
  no_blank_line raw ->
  exists request,
    socket.parseRequest raw = Some request
    /\ Req.method request = nth 0 (whitespace_tokens (request_line raw)) ""
    /\ Req.path request = nth 1 (whitespace_tokens (request_line raw)) ""
    /\ Req.version request = nth 2 (whitespace_tokens (request_line raw)) ""
    /\ (forall k v, map.get (Req.headers request) k = Some v
                    <-> last_field (header_lines raw) k v)
    /\ Req.body request = String.concat (String LF "") (body_lines raw).
Proof.
  unfold no_blank_line, inspected_lines, socket.parseRequest, request_line,
    header_lines, body_lines.
  destruct (socket.lines raw) as [|l0 ls]; intros Hall.
  - eexists. split; [reflexivity|]. repeat split; try reflexivity.
    + intros H. cbn in H. discriminate.
    + intros (b & l & a & E & _). now destruct b.
  - inversion Hall as [|? ? Hl0 Hrest]; subst. cbn [hd tl].
    rewrite (strip_cr_chomp l0 Hl0).
    destruct (read_request_line_tokens (chomp l0))
      as (Hm & Hp & Hv & Hh & Hb).
    rewrite whitespace_tokens_chomp in Hm, Hp, Hv.
    rewrite Hh, Hb.
    destruct (header_loop_fields ls map.empty Hrest) as (h & -> & Hfields).
    rewrite body_joined.
    eexists. split; [reflexivity|].
    cbn [Req.method Req.path Req.version Req.headers Req.body].
    repeat split; try assumption.
    + intros H. apply Hfields in H. destruct H as [H|[_ H]]; [assumption|].
      now rewrite map.get_empty in H.
    + intros H. apply Hfields. now left.
Qed.

Lemma parseRequest_blank_line (raw : string) :
  Exists (fun l => l = "") (inspected_lines raw) ->
  socket.parseRequest raw = None.
Proof.
  unfold inspected_lines, socket.parseRequest.
  destruct (socket.lines raw) as [|l0 ls]; intros Hex; [inversion Hex|].
  inversion Hex as [? ? ->|? ? Hrest]; subst; [reflexivity|].
  destruct (socket.strip_cr l0); [|reflexivity].
  now rewrite (header_loop_blank ls _ Hrest).
Qed.

(** [parseRequest] is defined exactly on the inputs without a blank
    line among the request line and the header lines. *)
Lemma parseRequest_defined_iff (raw : string) :
  (exists request, socket.parseRequest raw = Some request)
  <-> no_blank_line raw.
Proof.
  split.
  - intros [request Hreq]. unfold no_blank_line.
    apply Forall_forall. intros l Hin ->.
    rewrite parseRequest_blank_line in Hreq; [discriminate|].
    apply Exists_exists. now exists "".
  - intros H. destruct (parseRequest_defined raw H) as (request & Hreq & _).
    now exists request.
Qed.

(** C5. [parseRequest] is not total: on an input whose request line is
    empty, or that has an empty line before the header terminator, it
    calls [back()] on an empty string, which is undefined behaviour.
    This holds for the one-byte input LF and for a request whose
    headers end with a bare LF instead of CR LF; [handleClient] reaches
    the same undefined call for the bytes a client sends. *)
Theorem parseRequest_undefined_on_blank_line :
  socket.parseRequest (String LF "") = None
  /\ socket.parseRequest ("GET / HTTP/1.1" ++ String LF (String LF "body")) = None
  /\ socket.handleClient socket.default_request_handler 1 (String LF "")
     = socket.Undefined.
Proof. repeat split; reflexivity. Qed.

(** C6. On an input without a blank line, [parseRequest] returns a
    request whose header map binds a name [k] to a value [v] exactly
    when, among the lines between the request line and the terminator
    line, the last one that splits at its first colon into [k] before
    the colon and some text after it has [v] as that text less at most
    one leading space. A line without a colon binds no name, so it is
    skipped; of two lines with the same name the later one wins. *)
Theorem header_lines_parsed (raw : string) :
  no_blank_line raw ->
  exists request,
    socket.parseRequest raw = Some request
    /\ forall k v,
         map.get (Req.headers request) k = Some v
         <-> last_field (header_lines raw) k v.
Proof.
  intros H.
  destruct (parseRequest_defined raw H) as (request & Hreq & _ & _ & _ & Hh & _).
  now exists request.
Qed.

(** C7. On an input without a blank line, [parseRequest] returns a
    request whose method, path and version are the first, second and
    third white-space-separated token of the first line; a field whose
    token is missing is the empty string. *)
Theorem request_line_parsed (raw : string) :
  no_blank_line raw ->
  exists request,
    socket.parseRequest raw = Some request
    /\ Req.method request = nth 0 (whitespace_tokens (request_line raw)) ""
    /\ Req.path request = nth 1 (whitespace_tokens (request_line raw)) ""
    /\ Req.version request = nth 2 (whitespace_tokens (request_line raw)) "".
Proof.
  intros H.
  destruct (parseRequest_defined raw H)
    as (request & Hreq & Hm & Hp & Hv & _).
  now exists request.
Qed.

(** C8. On an input without a blank line, [parseRequest] returns a
    request whose body is the lines after the terminator line joined
    with single LF separators, with no LF after the last one. *)
Theorem body_lines_joined (raw : string) :
  no_blank_line raw ->
  exists request,
    socket.parseRequest raw = Some request
    /\ Req.body request = String.concat (String LF "") (body_lines raw).
Proof.
  intros H.
  destruct (parseRequest_defined raw H)
    as (request & Hreq & _ & _ & _ & _ & Hb).
  now exists request.
Qed.

Lemma header_lines_parsed_witness :
  exists request,
    socket.parseRequest sample_request = Some request
    /\ forall k v,
         map.get (Req.headers request) k = Some v
         <-> last_field (header_lines sample_request) k v.
Proof.
  apply (header_lines_parsed sample_request).
  unfold no_blank_line. vm_compute. repeat constructor; discriminate.
Defined.

Lemma request_line_parsed_witness :
  exists request,
    socket.parseRequest short_request = Some request
    /\ Req.method request = nth 0 (whitespace_tokens (request_line short_request)) ""
    /\ Req.path request = nth 1 (whitespace_tokens (request_line short_request)) ""
    /\ Req.version request = nth 2 (whitespace_tokens (request_line short_request)) "".
Proof.
  apply (request_line_parsed short_request).
  unfold no_blank_line. vm_compute. repeat constructor; discriminate.
Defined.

Lemma body_lines_joined_witness :
  exists request,
    socket.parseRequest sample_request = Some request
    /\ Req.body request = String.concat (String LF "") (body_lines sample_request).
Proof.
  apply (body_lines_joined sample_request).
  unfold no_blank_line. vm_compute. repeat constructor; discriminate.
Defined.

(** What the three theorems give on the sample inputs. *)
Example sample_request_parsed :
  socket.parseRequest sample_request
  = Some {| Req.method := "POST"; Req.path := "/echo?x=1";
            Req.version := "HTTP/1.1";
            Req.headers :=
              map.put (map.put map.empty "Host" "c") "X-Pad" " y";
            Req.body := "abc" ++ String LF "def" |}.
Proof. reflexivity. Qed.

Example short_request_parsed :
  socket.parseRequest short_request
  = Some {| Req.method := "GET"; Req.path := "/";
            Req.version := "";
            Req.headers := map.empty;
            Req.body := "" |}.
Proof. reflexivity. Qed.

(** ** The order of a [std::map] *)

Lemma ltb_lex_lt (a : string) : forall b,
  coqutil.Datatypes.String.ltb a b = true -> lex_lt a b.
Proof.
  induction a as [|x a IH]; intros [|y b]; cbn; try discriminate.
  - intros _. left. exists (String y b). now split.
  - destruct (Ascii.eqb_spec x y) as [->|Hxy].
    + intros H. destruct (IH b H) as [(s & Hs & ->)|(p & c & d & a' & b' & -> & -> & Hcd)].
      * left. now exists s.
      * right. now exists (String y p), c, d, a', b'.
    + unfold coqutil.Datatypes.String.Ascii.ltb. intros H.
      apply N.ltb_lt in H. right. now exists "", x, y, a, b.
Qed.

Lemma sorted_Sorted {V} (l : list (string * V)) :
  SortedList.sorted (p := SortedListString.Build_parameters V) l = true ->
  Sorted (fun e1 e2 => key_ltb e1 e2 = true) l.
Proof.
  induction l as [|[k1 v1] l IH]; intros H; [constructor|].
  destruct l as [|[k2 v2] l]; [repeat constructor|].
  cbn [SortedList.sorted] in H. apply andb_true_iff in H. destruct H as [H12 H].
  constructor; [now apply IH | constructor; exact H12].
Qed.

Lemma entries_ascending {V} (m : SortedListString.map V) :
  StronglySorted (fun e1 e2 => lex_lt (fst e1) (fst e2)) (entries m).
Proof.
  assert (H : StronglySorted (fun e1 e2 : string * V => key_ltb e1 e2 = true)
                (entries m)).
  { apply Sorted_StronglySorted.
    - intros e1 e2 e3. unfold key_ltb.
      apply coqutil.Datatypes.String.ltb_trans.
    - apply sorted_Sorted. exact (SortedList._value_ok m). }
  induction H as [|e l Hl IH Hall]; constructor; [assumption|].
  eapply Forall_impl; [|exact Hall].
  intros e' He'. now apply ltb_lex_lt.
Qed.

Lemma entries_get {V} (m : SortedListString.map V) (k : string) (v : V) :
  In (k, v) (entries m) -> map.get m k = Some v.
Proof.
  unfold entries. destruct m as [l Hl]. cbn.
  induction l as [|[k0 v0] l IH]; [intros []|].
  destruct (SortedList.sorted_cons
              (p := SortedListString.Build_parameters V)
              (ok := SortedListString.string_strict_order) _ _ _ Hl)
    as (Hl' & Hk0 & _).
  rewrite SortedList.lookup_cons.
  intros [[= -> ->]|Hin].
  - now rewrite (SortedList.eqb_refl
                   (p := SortedListString.Build_parameters V)
                   (ok := SortedListString.string_strict_order)).
  - specialize (IH Hl' Hin).
    destruct (@SortedList.eqb (SortedListString.Build_parameters V) k k0)
      eqn:E; [|assumption].
    apply (@SortedList.eqb_true (SortedListString.Build_parameters V)
             SortedListString.string_strict_order) in E.
    subst k0. congruence.
Qed.

(** C10. The header lines that the serializer writes are one line per
    entry of the response's header map, in strictly ascending byte-wise
    lexicographic order of the header names; and a second response
    whose header map has the same entries, in whatever order they were
    inserted, gets the same header lines. *)
Theorem headers_written_in_key_order
    (response response' : HttpResponse) (out : string) :
  (forall k, map.get (Resp.headers response') k
             = map.get (Resp.headers response) k) ->
  exists written : list (string * string),
    socket.write_headers (Resp.headers response) out
    = out ++ String.concat "" (List.map header_line written)
    /\ StronglySorted (fun h1 h2 => lex_lt (fst h1) (fst h2)) written
    /\ (forall k v, In (k, v) written
                    <-> map.get (Resp.headers response) k = Some v)
    /\ socket.write_headers (Resp.headers response') out
       = socket.write_headers (Resp.headers response) out.
Proof.
  intros Hsame. exists (entries (Resp.headers response)).
  split; [apply write_headers_lines|].
  split; [apply entries_ascending|].
  split; [intros k v; split; [apply entries_get | apply get_entries]|].
  f_equal. apply map.map_ext. exact Hsame.
Qed.

Lemma headers_written_in_key_order_witness :
  exists written : list (string * string),
    socket.write_headers (Resp.headers headers_set_ba) ""
    = "" ++ String.concat "" (List.map header_line written)
    /\ StronglySorted (fun h1 h2 => lex_lt (fst h1) (fst h2)) written
    /\ (forall k v, In (k, v) written
                    <-> map.get (Resp.headers headers_set_ba) k = Some v)
    /\ socket.write_headers (Resp.headers headers_set_ab) ""
       = socket.write_headers (Resp.headers headers_set_ba) "".
Proof.
  apply (headers_written_in_key_order headers_set_ba headers_set_ab "").
  intros k. reflexivity.
Defined.

Example headers_set_ba_written :
  socket.write_headers (Resp.headers headers_set_ba) ""
  = "Content-Type: text/plain" ++ CRLF
      ++ "Server: x" ++ CRLF
      ++ "X-Powered-By: y" ++ CRLF.
Proof. reflexivity. Qed.

(** ** End-to-end scenarios *)

Example scenario_get_root :
  socket.handleClient
    (server.routeRequest (server.get "/" hi_handler map.empty))
    18 ("GET / HTTP/1.1" ++ CRLF ++ CRLF)
  = socket.Done
      [socket.Send
         ("HTTP/1.1 200 OK" ++ CRLF
            ++ "Content-Type: text/html" ++ CRLF
            ++ "Content-Length: 11" ++ CRLF
            ++ CRLF ++ "<h1>Hi</h1>");
       socket.Close].
Proof. reflexivity. Qed.

Example scenario_post_echo :
  socket.handleClient
    (server.routeRequest (server.post "/echo" echo_handler map.empty))
    28 ("POST /echo HTTP/1.1" ++ CRLF ++ CRLF ++ "abc")
  = socket.Done
      [socket.Send
         ("HTTP/1.1 200 OK" ++ CRLF
            ++ "Content-Type: text/plain" ++ CRLF
            ++ "Content-Length: 3" ++ CRLF
            ++ CRLF ++ "abc");
       socket.Close].
Proof. reflexivity. Qed.

Example scenario_missing :
  socket.handleClient
    (server.routeRequest (server.get "/" hi_handler map.empty))
    25 ("GET /missing HTTP/1.1" ++ CRLF ++ CRLF)
  = socket.Done
      [socket.Send
         ("HTTP/1.1 404 Not Found" ++ CRLF
            ++ "Content-Type: text/html" ++ CRLF
            ++ "Content-Length: 50" ++ CRLF
            ++ CRLF ++ not_found_body);
       socket.Close].
Proof. reflexivity. Qed.

Example scenario_silent_client :
  socket.handleClient socket.default_request_handler 0 ""
  = socket.Done [socket.Close].
Proof. reflexivity. Qed.

(** * Further properties of the code *)

(** ** Characters of a string *)

Lemma all_chars_app (P : ascii -> bool) (a b : string) :
  all_chars P (a ++ b) = all_chars P a && all_chars P b.
Proof.
  induction a as [|c a IH]; [reflexivity|].
  cbn [append all_chars]. now rewrite IH, andb_assoc.
Qed.

Lemma all_chars_impl (P Q : ascii -> bool) (s : string) :
  (forall c, P c = true -> Q c = true) ->
  all_chars P s = true -> all_chars Q s = true.
Proof.
  intros HPQ. induction s as [|c s IH]; [reflexivity|].
  cbn [all_chars]. rewrite !andb_true_iff. intros [Hc Hs].
  split; [now apply HPQ | now apply IH].
Qed.

Lemma not_space_not_lf (c : ascii) : not_space c = true -> not_lf c = true.
Proof.
  unfold not_space, not_lf. destruct (Ascii.eqb_spec c LF) as [->|]; [|reflexivity].
  discriminate.
Qed.

Lemma name_char_not_lf (c : ascii) : name_char c = true -> not_lf c = true.
Proof. unfold name_char, not_lf. now rewrite andb_true_iff. Qed.

(** ** Splitting into lines and joining again *)

Lemma lines_nil (s : string) : socket.lines s = [] -> s = "".
Proof.
  destruct s as [|c s]; [reflexivity|]. cbn [socket.lines].
  destruct (Ascii.eqb c LF); [discriminate|].
  destruct (socket.lines s); discriminate.
Qed.

Lemma lines_app_lf (l rest : string) :
  all_chars not_lf l = true ->
  socket.lines (l ++ String LF rest) = l :: socket.lines rest.
Proof.
  induction l as [|c l IH]; cbn [append all_chars socket.lines].
  - intros _. reflexivity.
  - rewrite andb_true_iff. unfold not_lf at 1. intros [Hc Hl].
    destruct (Ascii.eqb c LF); [discriminate|]. now rewrite (IH Hl).
Qed.

Lemma lines_no_lf (s : string) :
  Forall (fun l => all_chars not_lf l = true) (socket.lines s).
Proof.
  induction s as [|c s IH]; [constructor|]. cbn [socket.lines].
  destruct (Ascii.eqb c LF) eqn:Hc; [now constructor|].
  destruct (socket.lines s) as [|l ls].
  - repeat constructor. cbn. unfold not_lf. now rewrite Hc.
  - inversion IH as [|? ? Hl Hls]; subst. constructor; [|assumption].
    cbn. unfold not_lf at 1. now rewrite Hc.
Qed.

Lemma concat_cons_lf (l : string) (ls : list string) :
  ls <> [] ->
  String.concat (String LF "") (l :: ls)
  = l ++ String LF (String.concat (String LF "") ls).
Proof. destruct ls; [congruence | reflexivity]. Qed.

Lemma lines_concat_chop (s : string) :
  String.concat (String LF "") (socket.lines s) = chop_lf s.
Proof.
  induction s as [|c s IH]; [reflexivity|].
  destruct s as [|d s'].
  - cbn. now destruct (Ascii.eqb c LF).
  - assert (Hne : socket.lines (String d s') <> []).
    { intros H. apply lines_nil in H. discriminate. }
    change (chop_lf (String c (String d s')))
      with (String c (chop_lf (String d s'))).
    rewrite <- IH. remember (String d s') as t. cbn [socket.lines].
    destruct (Ascii.eqb_spec c LF) as [->|Hc].
    + now rewrite concat_cons_lf.
    + destruct (socket.lines t) as [|l ls]; [congruence|].
      destruct ls; reflexivity.
Qed.

(** X1. Reading a text line by line to its end, appending each line
    and an LF to the body and then dropping the last character of a
    body that is not empty, gives the text back, less the LF that ends
    it when there is one; the final [pop_back] is never applied to an
    empty string. *)
Theorem body_loop_reassembles (s : string) :
  (if Str.empty (socket.body_loop (socket.lines s) "")
   then Some (socket.body_loop (socket.lines s) "")
   else Str.pop_back (socket.body_loop (socket.lines s) ""))
  = Some (chop_lf s).
Proof. rewrite body_joined. now rewrite lines_concat_chop. Qed.

(** ** Parsing what a client writes *)

Lemma split_ws_token (t : string) :
  all_chars not_space t = true -> split_ws t = [t].
Proof.
  induction t as [|c t IH]; [reflexivity|].
  cbn [all_chars split_ws]. rewrite andb_true_iff. unfold not_space at 1.
  intros [Hc Ht]. destruct (isspace c); [discriminate|].
  now rewrite (IH Ht).
Qed.

Lemma split_ws_token_app (t rest : string) (c : ascii) :
  all_chars not_space t = true -> isspace c = true ->
  split_ws (t ++ String c rest) = t :: split_ws rest.
Proof.
  intros Ht Hc. induction t as [|x t IH]; cbn [append split_ws].
  - now rewrite Hc.
  - cbn [all_chars] in Ht. apply andb_true_iff in Ht. destruct Ht as [Hx Ht].
    unfold not_space in Hx. destruct (isspace x); [discriminate|].
    now rewrite (IH Ht).
Qed.

Lemma token_not_empty (t : string) : t <> "" -> negb (Str.empty t) = true.
Proof. now destruct t. Qed.

Lemma request_line_tokens (m p v : string) :
  is_token m -> is_token p -> is_token v ->
  whitespace_tokens (m ++ " " ++ p ++ " " ++ v) = [m; p; v].
Proof.
  intros [Hm Hm'] [Hp Hp'] [Hv Hv']. unfold whitespace_tokens.
  change (m ++ " " ++ p ++ " " ++ v)
    with (m ++ String " " (p ++ String " " v)).
  rewrite (split_ws_token_app m _ " " Hm' eq_refl).
  rewrite (split_ws_token_app p _ " " Hp' eq_refl).
  rewrite (split_ws_token v Hv').
  cbn [filter]. now rewrite !token_not_empty.
Qed.

Lemma back_snoc (s : string) (c : ascii) :
  Str.back (s ++ String c "") = Some c.
Proof.
  induction s as [|x s IH]; [reflexivity|].
  cbn [append]. destruct s as [|y s']; [reflexivity|].
  exact IH.
Qed.

Lemma strip_cr_snoc (s : string) :
  socket.strip_cr (s ++ String CR "") = Some s.
Proof.
  unfold socket.strip_cr. rewrite back_snoc. cbn. apply pop_back_snoc.
Qed.

Lemma find_colon_after_name (k rest : string) :
  all_chars name_char k = true ->
  Str.find ":" (k ++ String ":" rest) = Some (String.length k).
Proof.
  induction k as [|c k IH]; [reflexivity|].
  cbn [all_chars append Str.find String.length]. rewrite andb_true_iff.
  unfold name_char at 1. rewrite andb_true_iff. intros [[_ Hc] Hk].
  destruct (Ascii.eqb c ":"); [discriminate|].
  now rewrite (IH Hk).
Qed.

Lemma take_length_app (a b : string) : Str.take (String.length a) (a ++ b) = a.
Proof.
  induction a as [|c a IH]; cbn; [now destruct b | now rewrite IH].
Qed.

Lemma drop_length_app (a b : string) : Str.drop (String.length a) (a ++ b) = b.
Proof. induction a as [|c a IH]; cbn; [now destruct b | exact IH]. Qed.

Lemma read_header_sent (k v : string) (hdrs : Headers) :
  all_chars name_char k = true ->
  socket.read_header (k ++ ": " ++ v ++ String CR "") hdrs
  = Some (map.put hdrs k v).
Proof.
  intros Hk. unfold socket.read_header.
  replace (k ++ ": " ++ v ++ String CR "")
    with ((k ++ String ":" (String " " v)) ++ String CR "")
    by (rewrite append_assoc; reflexivity).
  rewrite strip_cr_snoc, (find_colon_after_name k _ Hk).
  unfold Str.substr, Str.substr_from.
  replace (Str.drop 0 (k ++ String ":" (String " " v)))
    with (k ++ String ":" (String " " v)) by now destruct k.
  rewrite take_length_app.
  replace (String.length k + 1) with (String.length (k ++ ":"))
    by (rewrite coqutil.Datatypes.String.app_length; reflexivity).
  replace (k ++ String ":" (String " " v)) with ((k ++ ":") ++ String " " v)
    by (rewrite append_assoc; reflexivity).
  rewrite drop_length_app. reflexivity.
Qed.

Lemma sent_line_not_terminator (k v : string) :
  String.eqb (k ++ ": " ++ v ++ String CR "") (String CR "") = false.
Proof.
  apply String.eqb_neq. destruct k as [|c k]; [discriminate|].
  cbn. intros [= _ H]. now destruct k.
Qed.

Lemma header_loop_sent (hs : list (string * string)) (rest : list string) :
  forall hdrs : Headers,
  Forall sendable hs ->
  socket.header_loop
    (List.map sent_line hs
       ++ String CR "" :: rest)%list hdrs
  = Some (assign_all hs hdrs, rest).
Proof.
  induction hs as [|[k v] hs IH]; intros hdrs Hall; [reflexivity|].
  inversion Hall as [|? ? [Hk Hv] Hrest]; subst.
  cbn [fst snd] in Hk, Hv. unfold assign_all.
  cbn [List.map app socket.header_loop fst snd fold_left].
  change (sent_line (k, v)) with (k ++ ": " ++ v ++ String CR "").
  rewrite sent_line_not_terminator, (read_header_sent k v hdrs Hk).
  now apply IH.
Qed.

Lemma lines_header_block (hs : list (string * string)) (b : string) :
  Forall sendable hs ->
  socket.lines (header_block hs ++ CRLF ++ b)
  = (List.map sent_line hs
       ++ String CR "" :: socket.lines b)%list.
Proof.
  induction hs as [|[k v] hs IH]; intros Hall.
  - cbn [header_block List.map app append].
    apply (lines_app_lf (String CR "") b). reflexivity.
  - inversion Hall as [|? ? [Hk Hv] Hrest]; subst. cbn [fst snd] in *.
    cbn [header_block List.map app].
    change (sent_line (k, v)) with (k ++ ": " ++ v ++ String CR "").
    assert (E : (header_line (k, v) ++ header_block hs) ++ CRLF ++ b
                = (k ++ ": " ++ v ++ String CR "")
                    ++ String LF (header_block hs ++ CRLF ++ b)).
    { unfold header_line, CRLF. cbn [fst snd].
      repeat rewrite append_assoc. reflexivity. }
    rewrite E, lines_app_lf; [now rewrite (IH Hrest)|].
    rewrite !all_chars_app, Hv.
    rewrite (all_chars_impl _ _ _ name_char_not_lf Hk). reflexivity.
Qed.

Lemma parse_request_text
    (m p v : string) (hs : list (string * string)) (b : string) :
  is_token m -> is_token p -> is_token v -> Forall sendable hs ->
  socket.parseRequest (request_text m p v hs b)
  = Some {| Req.method := m; Req.path := p; Req.version := v;
            Req.headers := assign_all hs map.empty;
            Req.body := chop_lf b |}.
Proof.
  intros Hm Hp Hv Hhs. unfold socket.parseRequest, request_text.
  replace ((m ++ " " ++ p ++ " " ++ v) ++ CRLF ++ header_block hs ++ CRLF ++ b)
    with (((m ++ " " ++ p ++ " " ++ v) ++ String CR "")
            ++ String LF (header_block hs ++ CRLF ++ b))
    by (unfold CRLF; repeat rewrite append_assoc; reflexivity).
  rewrite lines_app_lf.
  - rewrite strip_cr_snoc, (lines_header_block hs b Hhs).
    destruct (read_request_line_tokens (m ++ " " ++ p ++ " " ++ v))
      as (Em & Ep & Ev & Eh & Eb).
    rewrite (request_line_tokens m p v Hm Hp Hv) in Em, Ep, Ev.
    cbn [nth] in Em, Ep, Ev. rewrite Eh, Eb, Em, Ep, Ev.
    rewrite (header_loop_sent hs _ _ Hhs), body_joined.
    now rewrite lines_concat_chop.
  - destruct Hm as [_ Hm], Hp as [_ Hp], Hv as [_ Hv].
    rewrite !all_chars_app.
    rewrite (all_chars_impl _ _ _ not_space_not_lf Hm).
    rewrite (all_chars_impl _ _ _ not_space_not_lf Hp).
    rewrite (all_chars_impl _ _ _ not_space_not_lf Hv). reflexivity.
Qed.

(** X2. A request text with a three-token request line, headers
    without LF (and without colon in their names), CR LF line ends and
    a blank line before the body has no blank line and is parsed into exactly those parts:
    the method, path and version, the header map that the assignments
    in order give (so a repeated name keeps the last value), and the
    body less the LF that ends it, if any. *)
Theorem parseRequest_request_text
    (m p v : string) (hs : list (string * string)) (b : string) :
  is_token m -> is_token p -> is_token v -> Forall sendable hs ->
  no_blank_line (request_text m p v hs b)
  /\ socket.parseRequest (request_text m p v hs b)
     = Some {| Req.method := m; Req.path := p; Req.version := v;
               Req.headers := assign_all hs map.empty;
               Req.body := chop_lf b |}.
Proof.
  intros Hm Hp Hv Hhs.
  pose proof (parse_request_text m p v hs b Hm Hp Hv Hhs) as Hparse.
  split; [|exact Hparse].
  apply parseRequest_defined_iff. eexists. exact Hparse.
Qed.

Lemma parseRequest_request_text_witness :
  no_blank_line
    (request_text "PUT" "/items/7" "HTTP/1.1"
       [("Host", "example.org"); ("Accept", "*/*"); ("Host", "other")]
       ("line one" ++ String LF "line two" ++ String LF ""))
  /\ socket.parseRequest
    (request_text "PUT" "/items/7" "HTTP/1.1"
       [("Host", "example.org"); ("Accept", "*/*"); ("Host", "other")]
       ("line one" ++ String LF "line two" ++ String LF ""))
  = Some {| Req.method := "PUT"; Req.path := "/items/7";
            Req.version := "HTTP/1.1";
            Req.headers :=
              assign_all
                [("Host", "example.org"); ("Accept", "*/*"); ("Host", "other")]
                map.empty;
            Req.body :=
              chop_lf ("line one" ++ String LF "line two" ++ String LF "") |}.
Proof.
  apply parseRequest_request_text.
  - split; [discriminate | reflexivity].
  - split; [discriminate | reflexivity].
  - split; [discriminate | reflexivity].
  - repeat constructor.
Defined.

(** ** What every parsed request satisfies *)

Lemma split_ws_no_space (s : string) :
  Forall (fun w => all_chars not_space w = true) (split_ws s).
Proof.
  induction s as [|c s IH]; [repeat constructor|].
  cbn [split_ws]. destruct (isspace c) eqn:Hc; [now constructor|].
  rewrite (split_ws_cons s) in IH. inversion IH as [|? ? Hhd Htl]; subst.
  constructor; [|assumption].
  cbn [all_chars]. unfold not_space at 1. now rewrite Hc.
Qed.

Lemma nth_token_no_space (n : nat) (s : string) :
  all_chars not_space (nth n (whitespace_tokens s) "") = true.
Proof.
  destruct (nth_in_or_default n (whitespace_tokens s) "") as [Hin| ->];
    [|reflexivity].
  unfold whitespace_tokens in Hin. apply filter_In in Hin.
  destruct Hin as [Hin _].
  pose proof (split_ws_no_space s) as H.
  rewrite Forall_forall in H. now apply H.
Qed.

Lemma parsed_request (raw : string) (request : HttpRequest) :
  socket.parseRequest raw = Some request ->
  Req.method request = nth 0 (whitespace_tokens (request_line raw)) ""
  /\ Req.path request = nth 1 (whitespace_tokens (request_line raw)) ""
  /\ Req.version request = nth 2 (whitespace_tokens (request_line raw)) ""
  /\ (forall k v, map.get (Req.headers request) k = Some v
                  <-> last_field (header_lines raw) k v)
  /\ Req.body request = String.concat (String LF "") (body_lines raw).
Proof.
  intros Hparse.
  assert (Hok : no_blank_line raw)
    by (apply parseRequest_defined_iff; now exists request).
  destruct (parseRequest_defined raw Hok) as (request' & Hparse' & H).
  rewrite Hparse in Hparse'. injection Hparse' as <-. exact H.
Qed.

(** X3. The method, path and version of a parsed request never contain
    a white-space character (space, tab, CR, LF, vertical tab, form
    feed): the request line is cut at every one of them. *)
Theorem parsed_tokens_have_no_space (raw : string) (request : HttpRequest) :
  socket.parseRequest raw = Some request ->
  all_chars not_space (Req.method request) = true
  /\ all_chars not_space (Req.path request) = true
  /\ all_chars not_space (Req.version request) = true.
Proof.
  intros Hparse.
  destruct (parsed_request raw request Hparse) as (-> & -> & -> & _).
  repeat split; apply nth_token_no_space.
Qed.

Lemma parsed_tokens_have_no_space_witness :
  all_chars not_space (Req.method sample_parsed) = true
  /\ all_chars not_space (Req.path sample_parsed) = true
  /\ all_chars not_space (Req.version sample_parsed) = true.
Proof.
  apply (parsed_tokens_have_no_space sample_request sample_parsed).
  reflexivity.
Defined.

Lemma before_terminator_in (ls : list string) (l : string) :
  In l (before_terminator ls) -> In l ls.
Proof.
  induction ls as [|x ls IH]; [intros []|]. cbn [before_terminator].
  destruct (is_terminator x); [intros []|].
  intros [->|Hin]; [now left | right; now apply IH].
Qed.

Lemma header_lines_no_lf (raw line : string) :
  In line (header_lines raw) -> all_chars not_lf line = true.
Proof.
  unfold header_lines. intros Hin. apply before_terminator_in in Hin.
  pose proof (lines_no_lf raw) as H. rewrite Forall_forall in H.
  apply H. destruct (socket.lines raw); [destruct Hin | now right].
Qed.

Lemma all_chars_chomp (P : ascii -> bool) (s : string) :
  all_chars P s = true -> all_chars P (chomp s) = true.
Proof.
  induction s as [|c s IH]; [reflexivity|]. destruct s as [|d s'].
  - cbn [chomp]. now destruct (Ascii.eqb c CR).
  - change (chomp (String c (String d s')))
      with (String c (chomp (String d s'))).
    remember (String d s') as t. cbn [all_chars].
    rewrite !andb_true_iff. intros [Hc Ht]. split; [assumption | now apply IH].
Qed.

Lemma no_colon_chars (k : string) :
  no_colon k -> all_chars not_lf k = true -> all_chars name_char k = true.
Proof.
  induction k as [|c k IH]; [reflexivity|]. intros Hno.
  cbn [all_chars]. rewrite !andb_true_iff. intros [Hc Hk].
  split; [|exact (IH (no_colon_tail _ _ Hno) Hk)].
  unfold name_char, not_lf in *. rewrite Hc. cbn.
  destruct (Ascii.eqb_spec c ":") as [->|]; [|reflexivity].
  now destruct (Hno "" k).
Qed.

(** X4. Every entry of a parsed request's header map comes from one
    line: its name contains no colon and no LF, and its value contains
    no LF. *)
Theorem parsed_headers_are_sendable
    (raw : string) (request : HttpRequest) (k v : string) :
  socket.parseRequest raw = Some request ->
  map.get (Req.headers request) k = Some v ->
  sendable (k, v).
Proof.
  intros Hparse Hget.
  destruct (parsed_request raw request Hparse) as (_ & _ & _ & Hh & _).
  apply Hh in Hget.
  destruct Hget as (before & line & after & E & (rest & Eline & Hno & ->) & _).
  assert (Hline : all_chars not_lf (chomp line) = true).
  { apply all_chars_chomp, (header_lines_no_lf raw).
    rewrite E. apply in_or_app. right. now left. }
  rewrite Eline, all_chars_app in Hline. apply andb_true_iff in Hline.
  destruct Hline as [Hk Hrest]. cbn [all_chars] in Hrest.
  apply andb_true_iff in Hrest. destruct Hrest as [_ Hrest].
  split; cbn [fst snd].
  - now apply no_colon_chars.
  - unfold strip_one_space. destruct rest as [|c rest]; [reflexivity|].
    cbn [all_chars] in Hrest. apply andb_true_iff in Hrest.
    destruct Hrest as [Hc Hrest'].
    destruct c as [[] [] [] [] [] [] [] []]; cbn [all_chars];
      try (rewrite Hc, Hrest'; reflexivity); exact Hrest'.
Qed.

Lemma parsed_headers_are_sendable_witness : sendable ("Host", "c").
Proof.
  apply (parsed_headers_are_sendable sample_request sample_parsed);
    reflexivity.
Defined.




(** ** The route table *)

(** X6. Registering a handler leaves the answer to every request with
    another method or another path as it was, be it a handler's
    response or the 404. *)
Theorem registration_leaves_other_routes
    (m_routes : server.Routes) (r : registration) (request : HttpRequest) :
  elsewhere (Req.method request) (Req.path request) r ->
  server.routeRequest (register m_routes r) request
  = server.routeRequest m_routes request.
Proof.
  intros Hr. rewrite !routeRequest_lookup, register_assign.
  rewrite lookup_assign_other; [reflexivity|].
  intros E. apply Hr. now symmetry.
Qed.

Lemma registration_leaves_other_routes_witness :
  server.routeRequest
    (register (server.get "/" hi_handler map.empty)
       {| reg_verb := POST; reg_path := "/"; reg_handler := echo_handler |})
    {| Req.method := "GET"; Req.path := "/"; Req.version := "HTTP/1.1";
       Req.headers := map.empty; Req.body := "x" |}
  = server.routeRequest (server.get "/" hi_handler map.empty)
      {| Req.method := "GET"; Req.path := "/"; Req.version := "HTTP/1.1";
         Req.headers := map.empty; Req.body := "x" |}.
Proof.
  apply registration_leaves_other_routes.
  unfold elsewhere. simpl. discriminate.
Defined.

(** X7. Two registrations under different (method, path) pairs can be
    made in either order: the route tables are the same. *)
Theorem registrations_commute
    (m_routes : server.Routes) (r1 r2 : registration) :
  (verb_name (reg_verb r1), reg_path r1)
    <> (verb_name (reg_verb r2), reg_path r2) ->
  register (register m_routes r1) r2 = register (register m_routes r2) r1.
Proof.
  intros Hne. rewrite !register_assign. unfold server.assign_route.
  set (m1 := verb_name (reg_verb r1)) in *.
  set (m2 := verb_name (reg_verb r2)) in *.
  destruct (String.eqb_spec m1 m2) as [E|Hm].
  - rewrite <- E in *. rewrite !map.get_put_same, !map.put_put_same.
    f_equal. apply map.put_put_diff. congruence.
  - rewrite !map.get_put_diff by congruence.
    apply map.put_put_diff. exact Hm.
Qed.

Lemma registrations_commute_witness :
  register
    (register map.empty
       {| reg_verb := GET; reg_path := "/"; reg_handler := hi_handler |})
    {| reg_verb := GET; reg_path := "/echo"; reg_handler := echo_handler |}
  = register
      (register map.empty
         {| reg_verb := GET; reg_path := "/echo"; reg_handler := echo_handler |})
      {| reg_verb := GET; reg_path := "/"; reg_handler := hi_handler |}.
Proof.
  apply registrations_commute. simpl. discriminate.
Defined.

Lemma find_app {A} (f : A -> bool) (l1 l2 : list A) :
  find f (l1 ++ l2)%list
  = match find f l1 with
    | Some x => Some x
    | None => find f l2
    end.
Proof.
  induction l1 as [|x l1 IH]; [reflexivity|]. cbn.
  now destruct (f x).
Qed.

Lemma targets_spec (request : HttpRequest) (r : registration) :
  targets request r = false
  <-> elsewhere (Req.method request) (Req.path request) r.
Proof.
  unfold targets, elsewhere.
  destruct (String.eqb_spec (verb_name (reg_verb r)) (Req.method request))
    as [Em|Hm];
    destruct (String.eqb_spec (reg_path r) (Req.path request)) as [Ep|Hp];
    cbn; split; try congruence; intros H; try reflexivity.
Qed.

Lemma lookup_route_registrations (request : HttpRequest)
    (regs : list registration) : forall m_routes : server.Routes,
  lookup_route (fold_left register regs m_routes)
    (Req.method request) (Req.path request)
  = match find (targets request) (rev regs) with
    | Some r => Some (reg_handler r)
    | None => lookup_route m_routes (Req.method request) (Req.path request)
    end.
Proof.
  induction regs as [|r regs IH]; intros m_routes; [reflexivity|].
  cbn [fold_left rev]. rewrite IH, find_app.
  destruct (find (targets request) (rev regs)); [reflexivity|].
  cbn [find]. rewrite register_assign.
  destruct (targets request r) eqn:Ht.
  - unfold targets in Ht. apply andb_true_iff in Ht. destruct Ht as [Em Ep].
    apply String.eqb_eq in Em, Ep. rewrite <- Em, <- Ep.
    apply lookup_assign_same.
  - apply lookup_assign_other. apply targets_spec in Ht.
    intros E. apply Ht. now symmetry.
Qed.

(** X8. On a server whose routes were all registered through [get],
    [post], [put] and [del], a request is answered by the handler of
    the last registration made under its method and path, and by the
    404 response when there is none. *)
Theorem last_registration_answers
    (regs : list registration) (request : HttpRequest) :
  server.routeRequest (routes_of regs) request
  = match find (targets request) (rev regs) with
    | Some r => reg_handler r request
    | None => Returned not_found
    end.
Proof.
  unfold routes_of. rewrite routeRequest_lookup, lookup_route_registrations.
  destruct (find (targets request) (rev regs)); [reflexivity|].
  unfold lookup_route. now rewrite map.get_empty.
Qed.

(** X9. Such a server answers 404 to every request whose method is not
    exactly [GET], [POST], [PUT] or [DELETE] (another method, or one of
    these in lower case), whatever was registered. *)
Theorem other_methods_are_not_found
    (regs : list registration) (request : HttpRequest) :
  ~ In (Req.method request) ["GET"; "POST"; "PUT"; "DELETE"] ->
  server.routeRequest (routes_of regs) request = Returned not_found.
Proof.
  intros Hm. unfold routes_of.
  rewrite routeRequest_lookup, lookup_route_registrations.
  destruct (find (targets request) (rev regs)) as [r|] eqn:Hf;
    [|unfold lookup_route; now rewrite map.get_empty].
  apply find_some in Hf. destruct Hf as [_ Ht].
  unfold targets in Ht. apply andb_true_iff in Ht. destruct Ht as [Em _].
  apply String.eqb_eq in Em. destruct Hm. rewrite <- Em.
  destruct (reg_verb r); cbn; auto.
Qed.

Lemma other_methods_are_not_found_witness :
  server.routeRequest
    (routes_of
       [ {| reg_verb := GET; reg_path := "/"; reg_handler := hi_handler |} ])
    {| Req.method := "get"; Req.path := "/"; Req.version := "HTTP/1.1";
       Req.headers := map.empty; Req.body := "" |}
  = Returned not_found.
Proof.
  apply other_methods_are_not_found.
  simpl. intros [H|[H|[H|[H|[]]]]]; discriminate.
Defined.

(** ** One connection *)



Lemma c_str_app_nul (a b : string) :
  Str.c_str (a ++ String NUL b) = Str.c_str a.
Proof.
  induction a as [|c a IH]; [reflexivity|].
  cbn [append Str.c_str]. now rewrite IH.
Qed.

Lemma c_str_no_nul (s : string) :
  all_chars not_nul s = true -> Str.c_str s = s.
Proof.
  induction s as [|c s IH]; [reflexivity|].
  cbn [all_chars Str.c_str]. rewrite andb_true_iff. unfold not_nul at 1.
  intros [Hc Hs]. destruct (Ascii.eqb c NUL); [discriminate|].
  now rewrite (IH Hs).
Qed.

(** X11. The bytes read are taken as a C string: a NUL byte and
    everything the client sent after it have no effect on what
    [handleClient] does. *)
Theorem handleClient_stops_at_nul
    (handler : RequestHandler) (bytes_read : Z) (a b : string) :
  socket.handleClient handler bytes_read (a ++ String NUL b)
  = socket.handleClient handler bytes_read a.
Proof.
  unfold socket.handleClient. now rewrite c_str_app_nul.
Qed.

Lemma verb_name_token (verb : verb) : is_token (verb_name verb).
Proof. destruct verb; split; (discriminate || reflexivity). Qed.

(** X12. End to end: when a client sends a well-formed request text
    (without NUL byte) for a method and path under which a handler is
    registered, and the handler returns a response for the request as
    parsed, the connection gets exactly that response, serialized, and
    is closed. *)
Theorem registered_route_is_served
    (m_routes : server.Routes) (r : registration) (later : list registration)
    (v : string) (hs : list (string * string)) (b : string)
    (bytes_read : Z) (response : HttpResponse) :
  let text := request_text (verb_name (reg_verb r)) (reg_path r) v hs b in
  let request :=
    {| Req.method := verb_name (reg_verb r); Req.path := reg_path r;
       Req.version := v; Req.headers := assign_all hs map.empty;
       Req.body := chop_lf b |} in
  Forall (elsewhere (verb_name (reg_verb r)) (reg_path r)) later ->
  is_token (reg_path r) -> is_token v -> Forall sendable hs ->
  all_chars not_nul text = true ->
  (0 < bytes_read)%Z ->
  reg_handler r request = Returned response ->
  socket.handleClient
    (server.routeRequest (fold_left register later (register m_routes r)))
    bytes_read text
  = socket.Done [socket.Send (socket.buildResponse response); socket.Close].
Proof.
  intros text request Hlater Hp Hv Hhs Hnul Hread Hret.
  apply (handleClient_sends_response _ _ _ request); [assumption| |].
  - rewrite (c_str_no_nul text Hnul). unfold text.
    apply parse_request_text;
      [apply verb_name_token | assumption | assumption | assumption].
  - rewrite routeRequest_lookup. cbn [Req.method Req.path request].
    rewrite lookup_after_registrations by assumption.
    now rewrite register_assign, lookup_assign_same.
Qed.

Lemma registered_route_is_served_witness :
  socket.handleClient
    (server.routeRequest
       (fold_left register []
          (register map.empty
             {| reg_verb := POST; reg_path := "/echo";
                reg_handler := echo_handler |})))
    64
    (request_text "POST" "/echo" "HTTP/1.1" [("Host", "example.org")] "abc")
  = socket.Done
      [socket.Send (socket.buildResponse (server.text "abc" 200));
       socket.Close].
Proof.
  apply (registered_route_is_served map.empty
           {| reg_verb := POST; reg_path := "/echo";
              reg_handler := echo_handler |} []).
  - constructor.
  - split; [discriminate | reflexivity].
  - split; [discriminate | reflexivity].
  - repeat constructor.
  - reflexivity.
  - reflexivity.
  - reflexivity.
Defined.

(** ** Responses *)

(** X13. What a client receives for a response built by [html], [json]
    or [text]: the status line with the given code and the reason
    phrase [OK] for 200 and [Error] for every other code, the one
    [Content-Type] header of the builder, the [Content-Length] of the
    content, a blank line and the content. *)
Theorem built_response_is_serialized (content : string) (code : Z) :
  let sent content_type :=
    "HTTP/1.1 " ++ Str.of_int code ++ " "
      ++ (if (code =? 200)%Z then "OK" else "Error") ++ CRLF
      ++ "Content-Type: " ++ content_type ++ CRLF
      ++ "Content-Length: " ++ Str.of_size_t (String.length content) ++ CRLF
      ++ CRLF ++ content in
  socket.buildResponse (server.html content code) = sent "text/html"
  /\ socket.buildResponse (server.json content code) = sent "application/json"
  /\ socket.buildResponse (server.text content code) = sent "text/plain".
Proof.
  cbv zeta. repeat split; rewrite buildResponse_layout;
    unfold response_head, server.html, server.json, server.text,
      server.respond;
    cbn [Resp.status_code Resp.status_text Resp.headers Resp.body];
    cbn [entries SortedList.value map.put map.empty SortedListString.map
         SortedList.map SortedList.put List.map String.concat header_line
         fst snd];
    repeat rewrite append_assoc; reflexivity.
Qed.

Lemma uint_no_lf (d : Decimal.uint) :
  all_chars not_lf (NilEmpty.string_of_uint d) = true.
Proof. induction d; cbn; auto. Qed.

Lemma decimal_no_lf (d : Decimal.uint) :
  all_chars not_lf (NilZero.string_of_uint d) = true.
Proof.
  unfold NilZero.string_of_uint.
  destruct d; [reflexivity|..]; apply uint_no_lf.
Qed.

Lemma of_size_t_no_lf (n : nat) : all_chars not_lf (Str.of_size_t n) = true.
Proof. apply decimal_no_lf. Qed.

Lemma of_int_no_lf (z : Z) : all_chars not_lf (Str.of_int z) = true.
Proof.
  unfold Str.of_int, NilZero.string_of_int.
  destruct (Z.to_int z) as [d|d]; [apply decimal_no_lf|].
  cbn [all_chars]. now rewrite decimal_no_lf.
Qed.

Lemma concat_header_block (hs : list (string * string)) :
  String.concat "" (List.map header_line hs) = header_block hs.
Proof.
  induction hs as [|h hs IH]; [reflexivity|].
  cbn [List.map header_block]. rewrite <- IH.
  destruct hs; cbn; [now rewrite append_nil_r | reflexivity].
Qed.

Lemma lines_header_block_then (hs : list (string * string)) (rest : string) :
  Forall lf_free hs ->
  socket.lines (header_block hs ++ rest)
  = (List.map sent_line hs ++ socket.lines rest)%list.
Proof.
  induction hs as [|[k v] hs IH]; intros Hall; [reflexivity|].
  inversion Hall as [|? ? [Hk Hv] Hrest]; subst. cbn [fst snd] in *.
  cbn [header_block List.map app].
  change (sent_line (k, v)) with (k ++ ": " ++ v ++ String CR "").
  assert (E : (header_line (k, v) ++ header_block hs) ++ rest
              = (k ++ ": " ++ v ++ String CR "")
                  ++ String LF (header_block hs ++ rest)).
  { unfold header_line, CRLF. cbn [fst snd].
    repeat rewrite append_assoc. reflexivity. }
  rewrite E, lines_app_lf; [now rewrite (IH Hrest)|].
  rewrite !all_chars_app, Hk, Hv. reflexivity.
Qed.

Lemma terminator_splits (l1 l2 : list string) :
  Forall (fun l => is_terminator l = false) l1 ->
  before_terminator (l1 ++ String CR "" :: l2) = l1
  /\ after_terminator (l1 ++ String CR "" :: l2) = l2.
Proof.
  induction l1 as [|l l1 IH]; intros Hall; [split; reflexivity|].
  inversion Hall as [|? ? Hl Hrest]; subst.
  cbn [app before_terminator after_terminator]. rewrite Hl.
  destruct (IH Hrest) as [-> ->]. now split.
Qed.

Lemma response_lines (response : HttpResponse) :
  all_chars not_lf (Resp.status_text response) = true ->
  Forall lf_free (entries (Resp.headers response)) ->
  socket.lines (socket.buildResponse response)
  = (status_line response
       :: (List.map sent_line (entries (Resp.headers response))
             ++ content_length_line response
             :: String CR "" :: socket.lines (Resp.body response)))%list.
Proof.
  intros Htext Hhs. rewrite buildResponse_layout.
  unfold response_head, status_line.
  rewrite concat_header_block.
  set (status := "HTTP/1.1 " ++ Str.of_int (Resp.status_code response) ++ " "
                   ++ Resp.status_text response).
  set (n := Str.of_size_t (String.length (Resp.body response))).
  assert (E : ("HTTP/1.1 " ++ Str.of_int (Resp.status_code response) ++ " "
                 ++ Resp.status_text response ++ CRLF
                 ++ header_block (entries (Resp.headers response)))
                ++ "Content-Length: " ++ n ++ CRLF ++ CRLF
                ++ Resp.body response
              = (status ++ String CR "")
                  ++ String LF
                       (header_block (entries (Resp.headers response))
                          ++ (("Content-Length: " ++ n) ++ String CR "")
                          ++ String LF
                               (String CR ""
                                  ++ String LF (Resp.body response)))).
  { unfold status, CRLF. repeat rewrite append_assoc. reflexivity. }
  rewrite E. clear E.
  rewrite lines_app_lf.
  - rewrite (lines_header_block_then _ _ Hhs). do 2 f_equal.
    rewrite lines_app_lf.
    + reflexivity.
    + rewrite !all_chars_app. unfold n. now rewrite of_size_t_no_lf.
  - unfold status. rewrite !all_chars_app, of_int_no_lf, Htext. reflexivity.
Qed.

Lemma sent_line_is_no_terminator (h : string * string) :
  is_terminator (sent_line h) = false.
Proof. destruct h as [k v]. apply sent_line_not_terminator. Qed.

(** X14. When the status text and the header names and values of a
    response contain no LF, its serialization is framed as the request
    parser reads a message: after the status line come one line per
    entry of the header map and the [Content-Length] line, the first
    line that consists of a single carriage return is the blank line
    written before the body, and the lines after it are the lines of
    the body. *)
Theorem response_is_framed (response : HttpResponse) :
  all_chars not_lf (Resp.status_text response) = true ->
  Forall lf_free (entries (Resp.headers response)) ->
  header_lines (socket.buildResponse response)
  = (List.map sent_line (entries (Resp.headers response))
       ++ [content_length_line response])%list
  /\ body_lines (socket.buildResponse response)
     = socket.lines (Resp.body response).
Proof.
  intros Htext Hhs. unfold header_lines, body_lines.
  rewrite (response_lines response Htext Hhs). cbn [tl].
  set (es := List.map sent_line (entries (Resp.headers response))).
  replace (es ++ content_length_line response
              :: String CR "" :: socket.lines (Resp.body response))%list
    with ((es ++ [content_length_line response])
            ++ String CR "" :: socket.lines (Resp.body response))%list
    by (rewrite <- app_assoc; reflexivity).
  apply terminator_splits. apply Forall_app. split.
  - unfold es. apply Forall_forall. intros l Hin.
    apply in_map_iff in Hin. destruct Hin as (h & <- & _).
    apply sent_line_is_no_terminator.
  - repeat constructor.
Qed.

Lemma response_is_framed_witness :
  header_lines (socket.buildResponse headers_set_ba)
  = (List.map sent_line (entries (Resp.headers headers_set_ba))
       ++ [content_length_line headers_set_ba])%list
  /\ body_lines (socket.buildResponse headers_set_ba)
     = socket.lines (Resp.body headers_set_ba).
Proof.
  apply response_is_framed.
  - reflexivity.
  - vm_compute. repeat constructor.
Defined.

(** ** Construction, start, stop and destruction *)

Lemma fresh_server_reachable : reachable fresh_server.
Proof. eapply (reach_construct 8080 sys_ok); reflexivity. Qed.

Lemma started_server_reachable : reachable started_server.
Proof.
  apply (reach_start fresh_server started_server [server.thread_start]);
    [apply fresh_server_reachable | reflexivity].
Qed.

Lemma reachable_invariant (self : server.state) :
  reachable self ->
  server.m_running self = server.joinable (server.m_server_thread self)
  /\ listen_fd self <> (-1)%Z.
Proof.
  unfold listen_fd. induction 1 as
    [port sys self calls Hc | self r _ IH | self self' effects _ IH Hs
    | self _ IH].
  - unfold server.construct, socket.construct in Hc.
    destruct (Z.eqb_spec (socket.socket_ret sys) (-1)) as [|Hfd];
      [discriminate|].
    destruct (socket.setsockopt_ret sys <? 0)%Z; [discriminate|].
    destruct (socket.bind_ret sys <? 0)%Z; [discriminate|].
    destruct (socket.listen_ret sys <? 0)%Z; [discriminate|].
    injection Hc as <- _. now split.
  - exact IH.
  - unfold server.start in Hs.
    destruct (server.joinable (server.m_server_thread self)); [discriminate|].
    injection Hs as <- _. cbn. now split.
  - destruct IH as [Hrun Hfd]. unfold server.stop, socket.stop.
    destruct (server.m_running self) eqn:Er.
    + rewrite <- Hrun. cbn.
      destruct (negb (socket.m_socket_fd (server.m_socket self) =? -1)%Z);
        cbn; now split.
    + cbn. rewrite Er. now split.
Qed.

Lemma socket_stop_open (self : socket.state) :
  socket.m_socket_fd self <> (-1)%Z ->
  socket.stop self
  = ({| socket.m_port := socket.m_port self;
        socket.m_socket_fd := socket.m_socket_fd self;
        socket.m_running := false |},
     [socket.shutdown_rdwr (socket.m_socket_fd self)]).
Proof.
  intros Hfd. unfold socket.stop. cbn.
  destruct (Z.eqb_spec (socket.m_socket_fd self) (-1));
    [contradiction | reflexivity].
Qed.

Lemma socket_destroy_open (self : socket.state) :
  socket.m_socket_fd self <> (-1)%Z ->
  socket.destroy self
  = [socket.sys_shutdown (socket.m_socket_fd self);
     socket.sys_close (socket.m_socket_fd self)].
Proof.
  intros Hfd. unfold socket.destroy. rewrite (socket_stop_open self Hfd).
  cbn. destruct (Z.eqb_spec (socket.m_socket_fd self) (-1));
    [contradiction | reflexivity].
Qed.

(** X15. On a server in a state it can reach, [stop] does nothing when
    the server is not running; when it is running, [stop] shuts the
    listening socket down and then joins the accept thread, and leaves
    the server not running with no thread to join. *)
Theorem stop_shuts_down_and_joins (self : server.state) :
  reachable self ->
  server.stop self
  = if server.m_running self
    then ({| server.m_socket :=
               {| socket.m_port := socket.m_port (server.m_socket self);
                  socket.m_socket_fd := listen_fd self;
                  socket.m_running := false |};
             server.m_routes := server.m_routes self;
             server.m_server_thread := server.not_a_thread;
             server.m_running := false |},
          [server.socket_call (socket.shutdown_rdwr (listen_fd self));
           server.thread_join])
    else (self, []).
Proof.
  intros Hreach. destruct (reachable_invariant self Hreach) as [Hrun Hfd].
  unfold server.stop, listen_fd in *.
  destruct (server.m_running self); [|reflexivity].
  rewrite (socket_stop_open _ Hfd), <- Hrun. reflexivity.
Qed.

Lemma stop_shuts_down_and_joins_witness :
  server.stop started_server
  = if server.m_running started_server
    then ({| server.m_socket :=
               {| socket.m_port :=
                    socket.m_port (server.m_socket started_server);
                  socket.m_socket_fd := listen_fd started_server;
                  socket.m_running := false |};
             server.m_routes := server.m_routes started_server;
             server.m_server_thread := server.not_a_thread;
             server.m_running := false |},
          [server.socket_call
             (socket.shutdown_rdwr (listen_fd started_server));
           server.thread_join])
    else (started_server, []).
Proof.
  apply stop_shuts_down_and_joins.
  apply (reach_start fresh_server started_server [server.thread_start]);
    [|reflexivity].
  eapply (reach_construct 8080 sys_ok); reflexivity.
Defined.

(** X16. On a server in a state it can reach, [start] ends in
    [std::terminate] exactly when the server is already running: a
    second [start] without a [stop] in between does not return, and
    after a [stop] the server can be started again. *)
Theorem start_terminates_iff_running (self : server.state) :
  reachable self ->
  (server.start self = None <-> server.m_running self = true).
Proof.
  intros Hreach. destruct (reachable_invariant self Hreach) as [Hrun _].
  unfold server.start. rewrite <- Hrun.
  destruct (server.m_running self); split; intros H;
    try reflexivity; discriminate.
Qed.

Lemma start_terminates_iff_running_witness :
  server.start started_server = None
  <-> server.m_running started_server = true.
Proof.
  apply start_terminates_iff_running.
  apply (reach_start fresh_server started_server [server.thread_start]);
    [|reflexivity].
  eapply (reach_construct 8080 sys_ok); reflexivity.
Defined.

(** X17. Destroying a server in a state it can reach never ends in
    [std::terminate]: it stops the server if it is running (shutdown,
    then join), and then the socket member's destructor shuts the
    descriptor down again and closes it, once, as the last call. *)
Theorem destroy_closes_once (self : server.state) :
  reachable self ->
  server.destroy self
  = Some ((if server.m_running self
           then [server.life_step
                   (server.socket_call
                      (socket.shutdown_rdwr (listen_fd self)));
                 server.life_step server.thread_join]
           else [])
          ++ [server.socket_step (socket.sys_shutdown (listen_fd self));
              server.socket_step (socket.sys_close (listen_fd self))])%list.
Proof.
  intros Hreach. destruct (reachable_invariant self Hreach) as [Hrun Hfd].
  unfold server.destroy, server.stop, listen_fd in *.
  destruct (server.m_running self).
  - rewrite (socket_stop_open _ Hfd), <- Hrun. cbn.
    now rewrite socket_destroy_open.
  - rewrite <- Hrun. cbn. now rewrite socket_destroy_open.
Qed.

Lemma destroy_closes_once_witness :
  server.destroy started_server
  = Some ((if server.m_running started_server
           then [server.life_step
                   (server.socket_call
                      (socket.shutdown_rdwr (listen_fd started_server)));
                 server.life_step server.thread_join]
           else [])
          ++ [server.socket_step
                (socket.sys_shutdown (listen_fd started_server));
              server.socket_step
                (socket.sys_close (listen_fd started_server))])%list.
Proof.
  apply destroy_closes_once.
  apply (reach_start fresh_server started_server [server.thread_start]);
    [|reflexivity].
  eapply (reach_construct 8080 sys_ok); reflexivity.
Defined.



(** X19. A socket whose construction succeeded makes, when destroyed,
    one [shutdown] and then one [close] of its descriptor, also when
    [stop] was called on it before (the shutdown is then repeated). *)
Theorem constructed_socket_is_closed_once
    (port : Z) (sys : socket.sys_results)
    (self : socket.state) (handler : RequestHandler) :
  fst (socket.construct port sys) = Returned (self, handler) ->
  socket.m_socket_fd self = socket.socket_ret sys
  /\ socket.destroy self
     = [socket.sys_shutdown (socket.m_socket_fd self);
        socket.sys_close (socket.m_socket_fd self)]
  /\ socket.destroy (fst (socket.stop self)) = socket.destroy self.
Proof.
  unfold socket.construct.
  destruct (Z.eqb_spec (socket.socket_ret sys) (-1)) as [|Hfd];
    [discriminate|].
  destruct (socket.setsockopt_ret sys <? 0)%Z; [discriminate|].
  destruct (socket.bind_ret sys <? 0)%Z; [discriminate|].
  destruct (socket.listen_ret sys <? 0)%Z; [discriminate|].
  cbn [fst]. intros [= <- _].
  set (self := {| socket.m_port := port;
                  socket.m_socket_fd := socket.socket_ret sys;
                  socket.m_running := false |}).
  assert (Hself : socket.m_socket_fd self <> (-1)%Z) by exact Hfd.
  split; [reflexivity|].
  rewrite (socket_stop_open self Hself). cbn [fst].
  rewrite (socket_destroy_open self Hself).
  split; [reflexivity|].
  now rewrite socket_destroy_open.
Qed.

Lemma constructed_socket_is_closed_once_witness :
  socket.m_socket_fd (server.m_socket fresh_server) = socket.socket_ret sys_ok
  /\ socket.destroy (server.m_socket fresh_server)
     = [socket.sys_shutdown (socket.m_socket_fd (server.m_socket fresh_server));
        socket.sys_close (socket.m_socket_fd (server.m_socket fresh_server))]
  /\ socket.destroy (fst (socket.stop (server.m_socket fresh_server)))
     = socket.destroy (server.m_socket fresh_server).
Proof.
  apply (constructed_socket_is_closed_once 8080 sys_ok
           (server.m_socket fresh_server) socket.default_request_handler).
  reflexivity.
Defined.

(** X20. A server on which nothing was registered answers every
    connection as the bare socket does with the handler its constructor
    installs: the 404 response for every request. *)
Theorem fresh_server_answers_like_socket
    (port : Z) (sys : socket.sys_results) (self : server.state)
    (calls : list socket.sys_call) (bytes_read : Z) (buffer : string) :
  server.construct port sys = (Returned self, calls) ->
  socket.handleClient (server.dispatch self) bytes_read buffer
  = socket.handleClient socket.default_request_handler bytes_read buffer.
Proof.
  unfold server.construct. intros Hc.
  destruct (socket.construct port sys) as [[[sock h]|e] calls'];
    [|discriminate].
  injection Hc as <- _.
  unfold socket.handleClient, server.dispatch, server.routeRequest,
    socket.default_request_handler.
  cbn [server.m_routes].
  destruct (bytes_read <=? 0)%Z; [reflexivity|].
  destruct (socket.parseRequest (Str.c_str buffer)) as [request|];
    reflexivity.
Qed.

Lemma fresh_server_answers_like_socket_witness :
  socket.handleClient (server.dispatch fresh_server) 18
    ("GET / HTTP/1.1" ++ CRLF ++ CRLF)
  = socket.handleClient socket.default_request_handler 18
      ("GET / HTTP/1.1" ++ CRLF ++ CRLF).
Proof.
  apply (fresh_server_answers_like_socket 8080 sys_ok fresh_server
           (snd (server.construct 8080 sys_ok))).
  reflexivity.
Defined.

(** X21. End to end: when a client sends a well-formed request text
    (without NUL byte) whose method and path have no registration,
    for instance a registered path followed by a query string, the
    connection gets the serialized 404 response and is closed. *)
Theorem unregistered_request_gets_404
    (regs : list registration) (m p v : string)
    (hs : list (string * string)) (b : string) (bytes_read : Z) :
  Forall (elsewhere m p) regs ->
  is_token m -> is_token p -> is_token v -> Forall sendable hs ->
  all_chars not_nul (request_text m p v hs b) = true ->
  (0 < bytes_read)%Z ->
  socket.handleClient (server.routeRequest (routes_of regs)) bytes_read
    (request_text m p v hs b)
  = socket.Done [socket.Send (socket.buildResponse not_found); socket.Close].
Proof.
  intros Hregs Hm Hp Hv Hhs Hnul Hread.
  apply (handleClient_sends_response _ _ _
           {| Req.method := m; Req.path := p; Req.version := v;
              Req.headers := assign_all hs map.empty;
              Req.body := chop_lf b |}); [assumption| |].
  - rewrite (c_str_no_nul _ Hnul). now apply parse_request_text.
  - unfold routes_of. rewrite routeRequest_lookup.
    cbn [Req.method Req.path].
    rewrite lookup_after_registrations by assumption.
    unfold lookup_route. now rewrite map.get_empty.
Qed.

Lemma unregistered_request_gets_404_witness :
  socket.handleClient
    (server.routeRequest
       (routes_of
          [ {| reg_verb := GET; reg_path := "/hello";
               reg_handler := hi_handler |} ]))
    64
    (request_text "GET" "/hello?name=Ada" "HTTP/1.1" [("Host", "a")] "")
  = socket.Done [socket.Send (socket.buildResponse not_found); socket.Close].
Proof.
  apply unregistered_request_gets_404.
  - repeat constructor. unfold elsewhere. simpl. discriminate.
  - split; [discriminate | reflexivity].
  - split; [discriminate | reflexivity].
  - split; [discriminate | reflexivity].
  - repeat constructor.
  - reflexivity.
  - reflexivity.
Defined.

(** ** The example application *)

Lemma lookup_assign_dec (m_routes : server.Routes)
    (method path : string) (handler : RequestHandler) (method' path' : string) :
  lookup_route (server.assign_route method path handler m_routes) method' path'
  = if String.eqb method' method && String.eqb path' path
    then Some handler
    else lookup_route m_routes method' path'.
Proof.
  destruct (String.eqb_spec method' method) as [->|Hm];
    destruct (String.eqb_spec path' path) as [->|Hp]; cbn [andb].
  - apply lookup_assign_same.
  - apply lookup_assign_other. congruence.
  - apply lookup_assign_other. congruence.
  - apply lookup_assign_other. congruence.
Qed.

Lemma example_lookup (now : Z) (method path : string) :
  lookup_route (example.routes now) method path
  = if String.eqb method "GET" && String.eqb path "/hello"
    then Some example.hello_handler
    else if String.eqb method "POST" && String.eqb path "/api/echo"
    then Some example.echo_handler
    else if String.eqb method "GET" && String.eqb path "/api/time"
    then Some (example.time_handler now)
    else if String.eqb method "GET" && String.eqb path "/api/status"
    then Some example.status_handler
    else if String.eqb method "GET" && String.eqb path "/"
    then Some example.index_handler
    else None.
Proof.
  unfold example.routes, server.get, server.post. cbv zeta.
  rewrite !lookup_assign_dec.
  unfold lookup_route. now rewrite map.get_empty.
Qed.

Lemma hello_at_hello (request : HttpRequest) :
  Req.path request = "/hello" ->
  example.hello_handler request
  = Returned (server.html (example.hello_page "World") 200).
Proof. intros Hp. unfold example.hello_handler. now rewrite Hp. Qed.

(** X22. The example application answers a request by its method and
    path alone: its four [GET] pages and its [POST /api/echo], and the
    404 response for everything else. The page of [/hello] always
    greets [World]: the route matches the path [/hello] exactly, so the
    handler never sees a query string. *)
Theorem example_replies (now : Z) (request : HttpRequest) :
  server.routeRequest (example.routes now) request
  = example_reply now request.
Proof.
  rewrite routeRequest_lookup, example_lookup. unfold example_reply.
  destruct (String.eqb_spec (Req.method request) "GET") as [Hm|Hm];
    destruct (String.eqb_spec (Req.method request) "POST") as [Hm'|Hm'];
    try congruence; cbn [andb].
  - destruct (String.eqb_spec (Req.path request) "/hello") as [Hp|_];
      [rewrite (hello_at_hello request Hp), Hp; reflexivity|].
    destruct (String.eqb_spec (Req.path request) "/api/time") as [Hp|_];
      [now rewrite Hp|].
    destruct (String.eqb_spec (Req.path request) "/api/status") as [Hp|_];
      [now rewrite Hp|].
    destruct (String.eqb_spec (Req.path request) "/") as [Hp|_]; reflexivity.
  - destruct (String.eqb (Req.path request) "/api/echo"); reflexivity.
  - reflexivity.
Qed.

(** X23. The example application answers 404 to every request whose
    path contains a question mark, whatever its method: no route is
    registered under such a path. *)
Theorem example_query_is_not_found
    (now : Z) (request : HttpRequest) (n : nat) :
  Str.find "?" (Req.path request) = Some n ->
  server.routeRequest (example.routes now) request = Returned not_found.
Proof.
  intros Hq. rewrite routeRequest_lookup, example_lookup.
  assert (Hne : forall p, Str.find "?" p = None -> Req.path request <> p)
    by (intros p Hp E; rewrite E in Hq; congruence).
  destruct (String.eqb_spec (Req.path request) "/hello") as [E|_];
    [now destruct (Hne "/hello" eq_refl)|].
  destruct (String.eqb_spec (Req.path request) "/api/echo") as [E|_];
    [now destruct (Hne "/api/echo" eq_refl)|].
  destruct (String.eqb_spec (Req.path request) "/api/time") as [E|_];
    [now destruct (Hne "/api/time" eq_refl)|].
  destruct (String.eqb_spec (Req.path request) "/api/status") as [E|_];
    [now destruct (Hne "/api/status" eq_refl)|].
  destruct (String.eqb_spec (Req.path request) "/") as [E|_];
    [now destruct (Hne "/" eq_refl)|].
  now rewrite !andb_false_r.
Qed.

Lemma example_query_is_not_found_witness :
  server.routeRequest (example.routes 0)
    {| Req.method := "GET"; Req.path := "/hello?name=Ada";
       Req.version := "HTTP/1.1"; Req.headers := map.empty; Req.body := "" |}
  = Returned not_found.
Proof.
  apply (example_query_is_not_found 0 _ 6). reflexivity.
Defined.

Lemma find_after_prefix (c : ascii) (p rest : string) :
  all_chars (fun x => negb (Ascii.eqb x c)) p = true ->
  Str.find c (p ++ String c rest) = Some (String.length p).
Proof.
  induction p as [|d p IH]; cbn [append all_chars Str.find String.length].
  - intros _. now rewrite Ascii.eqb_refl.
  - rewrite andb_true_iff. intros [Hd Hp].
    destruct (Ascii.eqb d c); [discriminate|]. now rewrite (IH Hp).
Qed.

(** X24. Called on its own, the [/hello] handler of the example does
    read a name from the query: for a path that ends in [?name=] and a
    name, with no question mark before, its page greets that name. *)
Theorem hello_handler_reads_name (request : HttpRequest) (p name : string) :
  all_chars not_question p = true ->
  Req.path request = p ++ "?name=" ++ name ->
  example.hello_handler request
  = Returned (server.html (example.hello_page name) 200).
Proof.
  intros Hp Hpath. unfold example.hello_handler. rewrite Hpath.
  change (p ++ "?name=" ++ name) with (p ++ String "?" ("name=" ++ name)).
  rewrite (find_after_prefix "?" p _ Hp).
  unfold Str.substr_from.
  replace (String.length p + 1) with (String.length (p ++ "?"))
    by (rewrite coqutil.Datatypes.String.app_length; reflexivity).
  replace (p ++ String "?" ("name=" ++ name))
    with ((p ++ "?") ++ "name=" ++ name)
    by (rewrite append_assoc; reflexivity).
  rewrite drop_length_app. reflexivity.
Qed.

Lemma hello_handler_reads_name_witness :
  example.hello_handler
    {| Req.method := "GET"; Req.path := "/hello?name=Ada";
       Req.version := "HTTP/1.1"; Req.headers := map.empty; Req.body := "" |}
  = Returned (server.html (example.hello_page "Ada") 200).
Proof.
  apply (hello_handler_reads_name _ "/hello" "Ada"); reflexivity.
Defined.

(** X25. [parseRequest] runs into the undefined [back()] call exactly
    on the inputs in which the request line or a line before the
    header terminator is empty. *)
Theorem parseRequest_undefined_iff (raw : string) :
  socket.parseRequest raw = None
  <-> Exists (fun l => l = "") (inspected_lines raw).
Proof.
  split; [|apply parseRequest_blank_line].
  intros Hnone.
  destruct (Exists_dec (fun l => l = "") (inspected_lines raw)
              (fun l => string_dec l "")) as [Hex|Hno]; [assumption|].
  apply Forall_Exists_neg in Hno.
  destruct (parseRequest_defined raw Hno) as (request & Hsome & _).
  congruence.
Qed.

(** X26. Whatever the callback, [handleClient] has undefined behaviour
    exactly when at least one byte was read and the received text,
    taken up to its first NUL, has an empty request line or an empty
    line before the header terminator: a client can bring it about, a
    handler cannot. *)
Theorem handleClient_undefined_iff
    (handler : RequestHandler) (bytes_read : Z) (buffer : string) :
  socket.handleClient handler bytes_read buffer = socket.Undefined
  <-> (0 < bytes_read)%Z
      /\ Exists (fun l => l = "") (inspected_lines (Str.c_str buffer)).
Proof.
  unfold socket.handleClient.
  destruct (Z.leb_spec bytes_read 0) as [Hle|Hlt].
  - split; [discriminate | intros [H _]; lia].
  - destruct (socket.parseRequest (Str.c_str buffer)) as [request|] eqn:Hp.
    + split.
      * destruct (handler request) as [response|[what|]]; discriminate.
      * intros [_ Hex]. apply parseRequest_blank_line in Hex. congruence.
    + split; [|reflexivity]. intros _. split; [assumption|].
      destruct (Exists_dec (fun l => l = "")
                  (inspected_lines (Str.c_str buffer))
                  (fun l => string_dec l "")) as [Hex|Hno]; [assumption|].
      apply Forall_Exists_neg in Hno.
      destruct (parseRequest_defined _ Hno) as (request & Hsome & _).
      congruence.
Qed.
